(** * Transformers daemon: scheduler, model cache, agent loop and supervisor

    A shallow embedding of the orchestration layer of [transformers_daemon]
    (task_scheduler.py, model_manager.py, agent_loop.py, daemon.py) and the
    properties of its cron matcher, bounded model cache, action queue,
    consciousness metric and shutdown path.

    Conventions of the embedding.
    - A Python [str] is a [string]; its characters are the code points
      below 256.
    - A Python call that may raise returns [res A]: [Ok a] for a normal
      return, [Raise e] for an exception that leaves the function.
    - [datetime.now()], the [pipeline] constructor and the call of a loaded
      pipeline belong to the environment: every operation receives the
      values the environment answers with as arguments.
    - A Python [float] is an exact rational of [Q]: rounding is not
      modelled.
    - [logger] calls write to a log nobody reads back; they are left out,
      except in the action drain, where the log line is the only trace of a
      processed action. *)

From Stdlib Require Import ZArith QArith Lia List String Ascii Bool.
From stdpp Require Import base option list strings gmap.

Set Default Proof Using "Type".
Local Open Scope Z_scope.

(** ** Python values, exceptions and results *)

Module Py.

(** The exceptions the modelled code can meet.  [SystemExit] derives from
    [BaseException] only, so [except Exception] lets it through. *)
Inductive exn : Type :=
  | ValueError
  | AttributeError
  | KeyError (key : string)
  | TypeError
  | ImportError
  | RuntimeError (msg : string)
  | SystemExit (code : Z).

Definition is_Exception (e : exn) : bool :=
  match e with
  | SystemExit _ => false
  | _ => true
  end.

Inductive res (A : Type) : Type :=
  | Ok (a : A)
  | Raise (e : exn).
Arguments Ok {A} a.
Arguments Raise {A} e.

Definition bind {A B} (r : res A) (k : A -> res B) : res B :=
  match r with
  | Ok a => k a
  | Raise e => Raise e
  end.

(** [try: body  except Exception as e: handler e] *)
Definition try_except {A} (body : res A) (handler : exn -> res A) : res A :=
  match body with
  | Ok a => Ok a
  | Raise e => if is_Exception e then handler e else Raise e
  end.

(** The values a configuration or an action dictionary holds. *)
Inductive value : Type :=
  | VNone
  | VBool (b : bool)
  | VInt (n : Z)
  | VStr (s : string)
  | VData (fields : list (string * string)).

(** *** [str.split()] without arguments *)

(** [str.isspace] on the code points below 256. *)
Definition isspace (c : ascii) : bool :=
  let n := Z.of_nat (nat_of_ascii c) in
  ((9 <=? n) && (n <=? 13)) || ((28 <=? n) && (n <=? 32))
  || (n =? 133) || (n =? 160).

Definition snoc (w : string) (c : ascii) : string :=
  (w ++ String c EmptyString)%string.

Definition flush (w : string) (k : list string) : list string :=
  match w with
  | EmptyString => k
  | _ => w :: k
  end.

(** Runs of whitespace separate the words; no empty word is produced. *)
Fixpoint split_from (w : string) (s : string) : list string :=
  match s with
  | EmptyString => flush w []
  | String c s' =>
      if isspace c then flush w (split_from EmptyString s')
      else split_from (snoc w c) s'
  end.

Definition split (s : string) : list string := split_from EmptyString s.

(** [schedule.split()] on an arbitrary value: only [str] has the method. *)
Definition value_split (v : value) : res (list string) :=
  match v with
  | VStr s => Ok (split s)
  | _ => Raise AttributeError
  end.

(** *** [int(s)] on a string, base 10 *)

Definition is_digit (c : ascii) : bool :=
  let n := Z.of_nat (nat_of_ascii c) in (48 <=? n) && (n <=? 57).

Definition digit_val (c : ascii) : Z := Z.of_nat (nat_of_ascii c) - 48.

(** [sys.int_info.default_max_str_digits] *)
Definition int_max_str_digits : nat := 4300.

(** Digits, with single underscores allowed between two digits.
    [prev] tells whether the previous character was a digit, [n] counts
    the digits read. *)
Fixpoint digits_from (acc : Z) (prev : bool) (n : nat) (s : string)
  : option (Z * nat) :=
  match s with
  | EmptyString => if prev then Some (acc, n) else None
  | String c s' =>
      if is_digit c then digits_from (10 * acc + digit_val c) true (S n) s'
      else if Ascii.eqb c "_" then
        if prev then digits_from acc false n s' else None
      else None
  end.

(** The whitespace [int()] skips at both ends of its argument: the
    whitespace of C below 128 and, above, what [str.isspace] accepts.  The
    separators 0x1c to 0x1f are whitespace for [str.split] but not for
    [int()], which rejects a string that holds one. *)
Definition int_isspace (c : ascii) : bool :=
  let n := Z.of_nat (nat_of_ascii c) in
  ((9 <=? n) && (n <=? 13)) || (n =? 32) || (n =? 133) || (n =? 160).

Fixpoint lstrip (s : string) : string :=
  match s with
  | String c s' => if int_isspace c then lstrip s' else s
  | EmptyString => EmptyString
  end.

Fixpoint rstrip (s : string) : string :=
  match s with
  | EmptyString => EmptyString
  | String c s' =>
      match rstrip s' with
      | EmptyString =>
          if int_isspace c then EmptyString else String c EmptyString
      | r => String c r
      end
  end.

Definition strip (s : string) : string := rstrip (lstrip s).

Definition int_unsigned (s : string) : res Z :=
  match digits_from 0 false 0 s with
  | Some (v, n) =>
      if (int_max_str_digits <? n)%nat then Raise ValueError else Ok v
  | None => Raise ValueError
  end.

Definition int_ (s : string) : res Z :=
  match strip s with
  | String "+" d => int_unsigned d
  | String "-" d => bind (int_unsigned d) (fun v => Ok (- v))
  | d => int_unsigned d
  end.

End Py.

Import Py.

#[global] Instance res_ret : MRet res := @Ok.
#[global] Instance res_bind : MBind res := fun A B k r => Py.bind r k.

(** ** [datetime] *)

(** A naive [datetime]: the fields the modelled code reads. *)
Record datetime : Type := mk_datetime {
  year : Z; month : Z; day : Z;
  hour : Z; minute : Z; second : Z; microsecond : Z
}.

#[global] Instance datetime_eq_dec : EqDecision datetime.
Proof. solve_decision. Defined.

Definition dt_tuple (d : datetime) : list Z :=
  [year d; month d; day d; hour d; minute d; second d; microsecond d].

Fixpoint lex_ltb (a b : list Z) : bool :=
  match a, b with
  | [], [] => false
  | [], _ :: _ => true
  | _ :: _, [] => false
  | x :: a', y :: b' => (x <? y) || ((x =? y) && lex_ltb a' b')
  end.

(** [a < b] on datetimes compares the fields from the year down. *)
Definition dt_ltb (a b : datetime) : bool := lex_ltb (dt_tuple a) (dt_tuple b).

(** [t.replace(second=0, microsecond=0)]: the instant truncated to its
    minute. *)
Definition trunc_minute (d : datetime) : datetime :=
  mk_datetime (year d) (month d) (day d) (hour d) (minute d) 0 0.

(** The proleptic Gregorian ordinal of the date, as [date.toordinal]. *)
Definition _is_leap (y : Z) : bool :=
  (y mod 4 =? 0) && (negb (y mod 100 =? 0) || (y mod 400 =? 0)).

Definition _days_before_year (y : Z) : Z :=
  let p := y - 1 in p * 365 + p / 4 - p / 100 + p / 400.

Definition _DAYS_BEFORE_MONTH : list Z :=
  [0; 31; 59; 90; 120; 151; 181; 212; 243; 273; 304; 334].

Definition _days_before_month (y m : Z) : Z :=
  nth (Z.to_nat (m - 1)) _DAYS_BEFORE_MONTH 0
  + (if (2 <? m) && _is_leap y then 1 else 0).

Definition toordinal (d : datetime) : Z :=
  _days_before_year (year d) + _days_before_month (year d) (month d) + day d.

(** The weekday as cron numbers it, [d.isoweekday() % 7]: Sunday is 0. *)
Definition cron_weekday (d : datetime) : Z := toordinal d mod 7.

(** ** Python list slicing and insertion-ordered dictionaries *)

(** [l[start:]] *)
Definition slice_from {A} (start : Z) (l : list A) : list A :=
  let n := Z.of_nat (length l) in
  let i := if start <? 0 then Z.max 0 (n + start) else Z.min start n in
  drop (Z.to_nat i) l.

(** A [dict] keeps its keys in insertion order; the order decides which of
    two equal minima [min] returns. *)
Module Dict.
Section Dict.
Context {V : Type}.

Definition t := list (string * V).

Fixpoint get (k : string) (d : t) : option V :=
  match d with
  | [] => None
  | (k', v) :: d' => if String.eqb k k' then Some v else get k d'
  end.

Definition mem (k : string) (d : t) : bool :=
  match get k d with Some _ => true | None => false end.

(** [d[k] = v]: an existing key keeps its place, a new key goes last. *)
Fixpoint set (k : string) (v : V) (d : t) : t :=
  match d with
  | [] => [(k, v)]
  | (k', v') :: d' =>
      if String.eqb k k' then (k, v) :: d' else (k', v') :: set k v d'
  end.

Fixpoint remove (k : string) (d : t) : t :=
  match d with
  | [] => []
  | (k', v') :: d' =>
      if String.eqb k k' then d' else (k', v') :: remove k d'
  end.

(** [del d[k]] *)
Definition del (k : string) (d : t) : res t :=
  if mem k d then Ok (remove k d) else Raise (KeyError k).

Definition keys (d : t) : list string := fst <$> d.
End Dict.
Arguments t V : clear implicits.
End Dict.

(** ** agent_loop.py *)

(** The dictionary [daemon.state], shared by reference between the daemon
    and the agent loop.  The Python floats [uptime] and
    [consciousness_level] are read as exact rationals: rounding is not
    modelled. *)
Record DaemonState : Type := mk_state {
  status : string;
  uptime : Q;
  cycles_completed : Z;
  last_thought : option string;
  consciousness_level : Q
}.

Module AgentLoop.

Record thought : Type := mk_thought {
  th_cycle : Z;
  th_timestamp : string;
  th_thought : string;
  th_type : string
}.

Record t : Type := mk {
  running : bool;
  consciousness_mode : bool;
  thoughts : list thought;
  pending_actions : list (gmap string value)
}.

(** [AgentLoop(config, ...)]: [consciousness_mode] is read from the
    configuration, [True] when absent. *)
Definition __init__ (consciousness_mode : option bool) : t :=
  mk false (default true consciousness_mode) [] [].

Definition set_thoughts (ths : list thought) (a : t) : t :=
  mk (running a) (consciousness_mode a) ths (pending_actions a).

Definition set_pending (q : list (gmap string value)) (a : t) : t :=
  mk (running a) (consciousness_mode a) (thoughts a) q.

(** [_consciousness_cycle(cycle)].  [generated] is what
    [_generate_thought] returned and [stamp] the text of
    [datetime.now().isoformat()]. *)
Definition _consciousness_cycle (cycle : Z) (generated : option string)
    (stamp : string) (a : t) (ds : DaemonState) : t * DaemonState :=
  if negb (consciousness_mode a) then (a, ds)
  else
    match generated with
    | Some (String c w as thought) =>
        let ths := thoughts a ++ [mk_thought cycle stamp thought "autonomous"] in
        let ths := if (100 <? length ths)%nat then slice_from (-100) ths
                   else ths in
        (set_thoughts ths a,
         mk_state (status ds) (uptime ds) (cycles_completed ds)
                  (Some thought) (consciousness_level ds))
    | _ => (a, ds)
    end.

(** [min(1.0, x)]: the first argument stays unless the second is
    smaller. *)
Definition min_1 (x : Q) : Q := if Qle_bool 1 x then 1%Q else x.

Definition consciousness (up : Q) (cycles : Z) (thoughts_count : nat) : Q :=
  min_1 ((up / 86400) * (3 # 10)
         + (inject_Z cycles / 10000) * (3 # 10)
         + (inject_Z (Z.of_nat thoughts_count) / 100) * (4 # 10))%Q.

(** [_update_consciousness()] *)
Definition _update_consciousness (a : t) (ds : DaemonState) : DaemonState :=
  mk_state (status ds) (uptime ds) (cycles_completed ds) (last_thought ds)
    (consciousness (uptime ds) (cycles_completed ds) (length (thoughts a))).

(** The metric as the specification words it: every fraction is clamped
    to [0, 1] before it is weighted, and so is the total. *)
Definition clamp01 (x : Q) : Q :=
  if Qle_bool x 0 then 0%Q else if Qle_bool 1 x then 1%Q else x.

Definition consciousness_clamped (up : Q) (cycles : Z) (thoughts_count : nat)
  : Q :=
  clamp01 (clamp01 (up / 86400) * (3 # 10)
           + clamp01 (inject_Z cycles / 10000) * (3 # 10)
           + clamp01 (inject_Z (Z.of_nat thoughts_count) / 100) * (4 # 10))%Q.

(** [add_task(task)] *)
Definition add_task (task : gmap string value) (a : t) : t :=
  set_pending (pending_actions a ++ [task]) a.

(** [get_recent_thoughts(count)] is [self.thoughts[-count:]]. *)
Definition get_recent_thoughts (count : Z) (a : t) : list thought :=
  slice_from (- count) (thoughts a).

(** What the body of the drain loop logs for one action. *)
Inductive log_line : Type :=
  | LogAnalysis (data : value)
  | LogConversation (message : value)
  | LogDocumentationCheck
  | LogUnknownType (action_type : option value)
  | LogError (e : exn).

Definition subscript (action : gmap string value) (k : string) : res value :=
  match action !! k with
  | Some v => Ok v
  | None => Raise (KeyError k)
  end.

Definition value_is_str (v : option value) (s : string) : bool :=
  match v with
  | Some (VStr s') => String.eqb s' s
  | _ => false
  end.

Definition handle (action : gmap string value) : log_line :=
  let action_type := action !! "type" in
  let body : res log_line :=
    if value_is_str action_type "log_analysis" then
      d ← subscript action "data"; Ok (LogAnalysis d)
    else if value_is_str action_type "conversation" then
      m ← subscript action "message"; Ok (LogConversation m)
    else if value_is_str action_type "documentation_check" then
      Ok LogDocumentationCheck
    else Ok (LogUnknownType action_type) in
  match try_except body (fun e => Ok (LogError e)) with
  | Ok l => l
  | Raise e => LogError e
  end.

(** [_process_actions()]: [while self.pending_actions: pop(0); ...].
    The body of the loop has no [await] and appends nothing: no other
    coroutine runs before the loop exits, so the list only shrinks, one
    head per iteration, until it is empty.  The result is the actions
    processed, in order, the lines logged and the agent when the loop
    exits. *)
Fixpoint drain (pending : list (gmap string value))
  : list (gmap string value) :=
  match pending with
  | [] => []
  | action :: rest => action :: drain rest
  end.

Definition _process_actions (a : t)
  : list (gmap string value) * list log_line * t :=
  let processed := drain (pending_actions a) in
  (processed, handle <$> processed, set_pending [] a).



End AgentLoop.

(** ** task_scheduler.py *)

Module TaskScheduler.

(** [_should_execute(task, current_time)].  The body of the [try] first,
    then the function with its [except Exception] clause. *)
Definition field_differs (field : string) (component : Z) : res bool :=
  if negb (String.eqb field "*") then
    v ← int_ field; Ok (negb (v =? component))
  else Ok false.

Definition _should_execute_try (schedule : value) (current_time : datetime)
  : res bool :=
  parts ← value_split schedule;
  match parts with
  | [minute_f; hour_f; day_f; month_f; weekday_f] =>
      no_minute ← field_differs minute_f (minute current_time);
      if no_minute : bool then Ok false
      else
        no_hour ← field_differs hour_f (hour current_time);
        if no_hour : bool then Ok false
        else Ok true
  | _ => Ok false
  end.

Definition _should_execute (task : gmap string value)
    (current_time : datetime) : res bool :=
  let schedule := default (VStr "") (task !! "schedule") in
  try_except (_should_execute_try schedule current_time)
             (fun e => Ok false).

(** The payloads the scheduled actions hand to the agent loop. *)
Definition report_action (stamp : string) : gmap string value :=
  {[ "type" := VStr "report";
     "data" := VData [("timestamp", stamp); ("type", "status_report");
                      ("content", "Daily autonomous status report generated");
                      ("daemon_uptime", "active");
                      ("models_loaded", "operational");
                      ("consciousness_level", "elevated")] ]}.

Definition stamped_action (kind stamp : string) : gmap string value :=
  {[ "type" := VStr kind; "timestamp" := VStr stamp ]}.

(** [_execute_task(task)]; [stamp] is the text of
    [datetime.now().isoformat()] read by the handler. *)
Definition _execute_task (stamp : string) (task : gmap string value)
    (agent_loop : option AgentLoop.t) : option AgentLoop.t :=
  let action := default (VStr "") (task !! "action") in
  if AgentLoop.value_is_str (Some action) "generate_status_report" then
    AgentLoop.add_task (report_action stamp) <$> agent_loop
  else if AgentLoop.value_is_str (Some action) "analyze_code_health" then
    AgentLoop.add_task (stamped_action "code_health_check" stamp) <$> agent_loop
  else if AgentLoop.value_is_str (Some action) "benchmark_models" then
    AgentLoop.add_task (stamped_action "benchmark" stamp) <$> agent_loop
  else if AgentLoop.value_is_str (Some action) "record_autonomous_thoughts" then
    let recent_thoughts := AgentLoop.get_recent_thoughts 5 <$> agent_loop in
    agent_loop
  else agent_loop.

(** [_check_and_execute_tasks()] at the instant [current_time].  Besides
    the agent loop it returns the positions, in [self.tasks], of the tasks
    it executed; [i] is the position of the head of [tasks].  An exception
    would leave the [for] loop and be absorbed by [run]. *)
Fixpoint check_from (i : nat) (tasks : list (gmap string value))
    (current_time : datetime) (stamp : string)
    (agent_loop : option AgentLoop.t) : option AgentLoop.t * list nat :=
  match tasks with
  | [] => (agent_loop, [])
  | task :: tasks' =>
      match _should_execute task current_time with
      | Ok true =>
          let '(al, fired) :=
            check_from (S i) tasks' current_time stamp
                       (_execute_task stamp task agent_loop) in
          (al, i :: fired)
      | Ok false => check_from (S i) tasks' current_time stamp agent_loop
      | Raise _ => (agent_loop, [])
      end
  end.

Definition _check_and_execute_tasks (tasks : list (gmap string value))
    (current_time : datetime) (stamp : string)
    (agent_loop : option AgentLoop.t) : option AgentLoop.t * list nat :=
  check_from 0 tasks current_time stamp agent_loop.

(** [run()]: one poll per iteration of the loop, then [sleep(60)].
    [polls] gives, for every iteration until [stop()], the value of
    [datetime.now()] it read.  The result lists the firings: the instant
    of the poll and the position of the task. *)
Fixpoint run (tasks : list (gmap string value))
    (polls : list (datetime * string)) (agent_loop : option AgentLoop.t)
  : option AgentLoop.t * list (datetime * nat) :=
  match polls with
  | [] => (agent_loop, [])
  | (now, stamp) :: polls' =>
      let '(al, fired) := _check_and_execute_tasks tasks now stamp agent_loop in
      let '(al', later) := run tasks polls' al in
      (al', ((fun i => (now, i)) <$> fired) ++ later)
  end.

(** The task at position [i] is due at the instant [now]. *)
Definition due (tasks : list (gmap string value)) (i : nat) (now : datetime)
  : bool :=
  match tasks !! i with
  | Some task =>
      match _should_execute task now with Ok true => true | _ => false end
  | None => false
  end.

(** How often the task at position [i] fired within the minute [m], and
    how many polls of that minute found it due. *)
Definition fired_in (firings : list (datetime * nat)) (i : nat) (m : datetime)
  : nat :=
  length (filter (fun f => trunc_minute f.1 = m /\ f.2 = i) firings).

Definition due_polls (tasks : list (gmap string value))
    (polls : list (datetime * string)) (i : nat) (m : datetime) : nat :=
  length (filter (fun p => trunc_minute p.1 = m /\ due tasks i p.1 = true)
                 polls).

(** *** Fields and specs *)

(** A field matches a component when it is the wildcard or an integer
    equal to the component; it is well formed when it is the wildcard or
    an integer. *)
Definition field_matches (field : string) (component : Z) : bool :=
  String.eqb field "*"
  || match int_ field with Ok v => v =? component | Raise _ => false end.

Definition field_well_formed (field : string) : bool :=
  String.eqb field "*"
  || match int_ field with Ok _ => true | Raise _ => false end.

(** The malformed specs the code detects: not five fields, or a minute or
    hour field that is neither ["*"] nor an integer. *)
Definition malformed_minute_hour (spec : string) : bool :=
  match split spec with
  | [minute_f; hour_f; day_f; month_f; weekday_f] =>
      negb (field_well_formed minute_f) || negb (field_well_formed hour_f)
  | _ => true
  end.

(** *** The matcher as the specification words it *)

(** A spec is well formed when it has five fields, each the wildcard or an
    integer, and malformed otherwise. *)
Definition well_formed (spec : string) : bool :=
  (length (split spec) =? 5)%nat && forallb field_well_formed (split spec).

Definition malformed (spec : string) : bool := negb (well_formed spec).

(** All five fields against minute, hour, day of month, month, weekday. *)
Definition fires_all_five (spec : string) (instant : datetime) : bool :=
  match split spec with
  | [minute_f; hour_f; day_f; month_f; weekday_f] =>
      field_matches minute_f (minute instant)
      && field_matches hour_f (hour instant)
      && field_matches day_f (day instant)
      && field_matches month_f (month instant)
      && field_matches weekday_f (cron_weekday instant)
  | _ => false
  end.

End TaskScheduler.

(** ** model_manager.py *)

Module ModelManager.

(** An entry of [loaded_models] and an entry of [model_usage]. *)
Record model_info : Type := mk_info {
  pipeline : string;
  task : string;
  loaded_at : datetime;
  usage_count : Z
}.

Record usage : Type := mk_usage {
  last_used : datetime;
  total_inferences : Z
}.

Record t : Type := mk {
  default_model : option string;
  loaded_models : Dict.t model_info;
  model_usage : Dict.t usage;
  max_loaded : Z
}.

(** [ModelManager(config)], from the two keys of [config] that are read:
    [max_loaded_models] (3 when absent) and [default_model]. *)
Definition __init__ (max_loaded_models : option Z)
    (default_model : option string) : t :=
  mk default_model [] [] (default 3 max_loaded_models).

(** What the environment answers during one call: the outcome of
    [pipeline(task, model=model_name)], the two [datetime.now()] read when
    the entry is filled in, the outcome of calling the pipeline on the
    prompt, and the [datetime.now()] stored as [last_used] afterwards. *)
Record world : Type := mk_world {
  pipeline_result : res string;
  now_loaded_at : datetime;
  now_last_used : datetime;
  call_result : res string;
  now_used : datetime
}.

(** [len(self.loaded_models)] *)
Definition size (m : t) : Z := Z.of_nat (length (loaded_models m)).

(** [min(items, key=lambda x: x[1]['last_used'])]: the first item stays
    unless a later one is strictly smaller. *)
Fixpoint min_from (best : string * usage) (items : list (string * usage))
  : string * usage :=
  match items with
  | [] => best
  | item :: items' =>
      if dt_ltb (last_used (snd item)) (last_used (snd best))
      then min_from item items'
      else min_from best items'
  end.

(** The entry [_unload_least_used] picks, if there is any. *)
Definition lru_entry (used : Dict.t usage) : option (string * usage) :=
  match used with
  | [] => None
  | first :: others => Some (min_from first others)
  end.

(** [_unload_least_used()] *)
Definition _unload_least_used (m : t) : t * res unit :=
  match lru_entry (model_usage m) with
  | None => (m, Ok ())
  | Some lru =>
      let lru_model := fst lru in
      match Dict.del lru_model (loaded_models m) with
      | Raise e => (m, Raise e)
      | Ok loaded =>
          let m1 := mk (default_model m) loaded (model_usage m) (max_loaded m) in
          match Dict.del lru_model (model_usage m) with
          | Raise e => (m1, Raise e)
          | Ok used => (mk (default_model m) loaded used (max_loaded m), Ok ())
          end
      end
  end.

(** [except Exception as e: ... return None], with the state the
    exception left behind. *)
Definition except_none {A} (r : t * res (option A)) : t * res (option A) :=
  match r with
  | (m, Raise e) => if is_Exception e then (m, Ok None) else (m, Raise e)
  | ok => ok
  end.

(** [load_model(model_name, task)] *)
Definition load_model (w : world) (model_name task : string) (m : t)
  : t * res (option model_info) :=
  except_none
    match Dict.get model_name (loaded_models m) with
    | Some info => (m, Ok (Some info))
    | None =>
        let '(m1, unloaded) :=
          if size m >=? max_loaded m
          then _unload_least_used m else (m, Ok ()) in
        match unloaded with
        | Raise e => (m1, Raise e)
        | Ok _ =>
            match pipeline_result w with
            | Raise e => (m1, Raise e)
            | Ok model_pipe =>
                let info := mk_info model_pipe task (now_loaded_at w) 0 in
                (mk (default_model m1)
                    (Dict.set model_name info (loaded_models m1))
                    (Dict.set model_name (mk_usage (now_last_used w) 0)
                              (model_usage m1))
                    (max_loaded m1),
                 Ok (Some info))
            end
        end
    end.

(** [generate(prompt, model_name)] *)
Definition generate (w : world) (prompt : string) (model_name : option string)
    (m : t) : t * res (option string) :=
  except_none
    (let model_name :=
       match model_name with
       | Some n => n
       | None => default "gpt2"%string (default_model m)
       end in
     let '(m1, loaded) :=
       if negb (Dict.mem model_name (loaded_models m))
       then load_model w model_name "text-generation" m
       else (m, Ok None) in
     match loaded with
     | Raise e => (m1, Raise e)
     | Ok _ =>
         match Dict.get model_name (loaded_models m1) with
         | None => (m1, Ok None)
         | Some info =>
             match call_result w with
             | Raise e => (m1, Raise e)
             | Ok result =>
                 let info' := mk_info (pipeline info) (task info)
                                (loaded_at info) (usage_count info + 1) in
                 let m2 := mk (default_model m1)
                              (Dict.set model_name info' (loaded_models m1))
                              (model_usage m1) (max_loaded m1) in
                 match Dict.get model_name (model_usage m2) with
                 | None => (m2, Raise (KeyError model_name))
                 | Some u =>
                     let u' := mk_usage (now_used w) (total_inferences u + 1) in
                     (mk (default_model m2) (loaded_models m2)
                         (Dict.set model_name u' (model_usage m2))
                         (max_loaded m2),
                      Ok (Some result))
                 end
             end
         end
     end).

(** [get_loaded_models()] and [cleanup()] *)
Definition get_loaded_models (m : t) : list string :=
  Dict.keys (loaded_models m).

Definition cleanup (m : t) : t := mk (default_model m) [] [] (max_loaded m).

(** A call of the public interface, with the answers of the environment. *)
Inductive call : Type :=
  | LoadModel (model_name task : string) (w : world)
  | Generate (prompt : string) (model_name : option string) (w : world).

Definition perform (c : call) (m : t) : t :=
  match c with
  | LoadModel model_name task w => fst (load_model w model_name task m)
  | Generate prompt model_name w => fst (generate w prompt model_name m)
  end.

(** The manager after each call of a sequence. *)
Fixpoint states (calls : list call) (m : t) : list t :=
  match calls with
  | [] => []
  | c :: calls' => perform c m :: states calls' (perform c m)
  end.

Definition run_calls (calls : list call) (m : t) : t :=
  fold_left (fun m c => perform c m) calls m.

(** The two dictionaries of a manager hold the same keys in the same
    order, each once. *)
Definition wf (m : t) : Prop :=
  Dict.keys (loaded_models m) = Dict.keys (model_usage m)
  /\ NoDup (Dict.keys (loaded_models m)).

(** The manager with the model [k] unloaded. *)
Definition without (k : string) (m : t) : t :=
  mk (default_model m) (Dict.remove k (loaded_models m))
     (Dict.remove k (model_usage m)) (max_loaded m).

(** The manager after the capacity test of [load_model]: at or over
    capacity the entry picked by [_unload_least_used] is gone. *)
Definition make_room (m : t) : t :=
  if size m >=? max_loaded m then
    match lru_entry (model_usage m) with
    | Some lru => without (fst lru) m
    | None => m
    end
  else m.

(** The manager with a freshly loaded model filled in. *)
Definition with_model (model_name : string) (info : model_info) (u : usage)
    (m : t) : t :=
  mk (default_model m) (Dict.set model_name info (loaded_models m))
     (Dict.set model_name u (model_usage m)) (max_loaded m).



(** The invariant of the cache with capacity [K]. *)
Definition bounded (K : Z) (m : t) : Prop :=
  wf m /\ max_loaded m = K /\ size m <= K.

(** [r] is the first of the entries with the oldest [last_used]: no entry
    is older, and every entry inserted before it is strictly newer. *)
Definition first_oldest (r : string * usage) (used : Dict.t usage) : Prop :=
  (exists before after,
     used = before ++ r :: after /\
     forall x, x ∈ before ->
               dt_ltb (last_used r.2) (last_used x.2) = true)
  /\ forall x, x ∈ used -> dt_ltb (last_used x.2) (last_used r.2) = false.

(** [get_model_info(model_name)] *)
Definition get_model_info (model_name : string) (m : t) : option model_info :=
  Dict.get model_name (loaded_models m).

(** An entry of [config['pool']] with the keys [initialize] reads. *)
Record pool_entry : Type := mk_pool {
  pool_name : option string;
  pool_task : option string;
  auto_load : option bool
}.

(** The loop of [initialize()] over the pool; every entry comes with the
    answers of the environment to its [load_model]. *)
Fixpoint load_pool (pool : list (pool_entry * world)) (m : t) : t * res unit :=
  match pool with
  | [] => (m, Ok ())
  | (entry, w) :: pool' =>
      if default false (auto_load entry) then
        match pool_name entry with
        | None => (m, Raise (KeyError "name"))
        | Some model_name =>
            let '(m1, loaded) :=
              load_model w model_name
                         (default "text-generation"%string (pool_task entry)) m in
            match loaded with
            | Raise e => (m1, Raise e)
            | Ok _ => load_pool pool' m1
            end
        end
      else load_pool pool' m
  end.

(** [initialize()]; [import_ok] tells whether [from transformers import
    ...] succeeded.  Both [except] clauses only log. *)
Definition initialize (import_ok : bool) (pool : list (pool_entry * world))
    (m : t) : t :=
  if import_ok then (load_pool pool m).1 else m.

(** Sample environments: everything succeeds and the three clock reads
    happen at the seconds [s], [s + 1] and [s + 2] of 09:00 on 2 January
    2024; or the construction of the pipeline fails. *)
Definition at_second (s : Z) : datetime := mk_datetime 2024 1 2 9 0 s 0.

Definition world_ok (s : Z) : world :=
  mk_world (Ok "pipeline"%string) (at_second s) (at_second (s + 1))
           (Ok "generated text"%string) (at_second (s + 2)).

Definition world_no_pipeline (s : Z) : world :=
  mk_world (Raise (RuntimeError "model not found")) (at_second s)
           (at_second (s + 1)) (Ok "generated text"%string) (at_second (s + 2)).

End ModelManager.

(** ** daemon.py *)

Module TransformersDaemon.

Record t : Type := mk {
  running : bool;
  state : DaemonState;
  agent_loop : option AgentLoop.t;
  model_manager : option ModelManager.t
}.

Definition set_status (s : string) (ds : DaemonState) : DaemonState :=
  mk_state s (uptime ds) (cycles_completed ds) (last_thought ds)
           (consciousness_level ds).

Definition __init__ : t :=
  mk false (mk_state "initializing" 0 0 None 0) None None.

(** [start()] up to the launch of the component tasks: the status becomes
    ["running"], the model manager and, when enabled, the agent loop are
    created; the agent loop receives [self.state] itself.  No model of the
    pool is marked [auto_load]. *)
Definition start (agent_enabled : bool) (consciousness_mode : option bool)
    (max_loaded_models : option Z) (default_model : option string) (d : t) : t :=
  mk true (set_status "running" (state d))
     (if agent_enabled then Some (AgentLoop.__init__ consciousness_mode)
      else None)
     (Some (ModelManager.__init__ max_loaded_models default_model)).

(** [shutdown()]: the last statement is [sys.exit(0)]. *)
Definition shutdown (d : t) : t * res unit :=
  (mk false (set_status "shutdown" (state d)) (agent_loop d)
      (ModelManager.cleanup <$> model_manager d),
   Raise (SystemExit 0)).

(** One iteration of [_main_loop()]; [elapsed] is
    [(datetime.now() - self.start_time).total_seconds()]. *)
Definition heartbeat (elapsed : Q) (d : t) : t :=
  mk (running d)
     (mk_state (status (state d)) elapsed (cycles_completed (state d) + 1)
               (last_thought (state d)) (consciousness_level (state d)))
     (agent_loop d) (model_manager d).

(** What happens to the shared state while the daemon runs: iterations of
    the heartbeat and, in the agent loop, the steps of its cycle. *)
Inductive event : Type :=
  | Heartbeat (elapsed : Q)
  | ConsciousnessCycle (cycle : Z) (generated : option string) (stamp : string)
  | AddTask (task : gmap string value)
  | ProcessActions
  | UpdateConsciousness.

Definition step (e : event) (d : t) : t :=
  match e, agent_loop d with
  | Heartbeat elapsed, _ => heartbeat elapsed d
  | ConsciousnessCycle cycle generated stamp, Some a =>
      let '(a', ds) :=
        AgentLoop._consciousness_cycle cycle generated stamp a (state d) in
      mk (running d) ds (Some a') (model_manager d)
  | AddTask task, Some a =>
      mk (running d) (state d) (Some (AgentLoop.add_task task a))
         (model_manager d)
  | ProcessActions, Some a =>
      mk (running d) (state d) (Some (snd (AgentLoop._process_actions a)))
         (model_manager d)
  | UpdateConsciousness, Some a =>
      mk (running d) (AgentLoop._update_consciousness a (state d))
         (Some a) (model_manager d)
  | _, None => d
  end.

(** The daemon after each event of a run. *)
Fixpoint snapshots (events : list event) (d : t) : list t :=
  match events with
  | [] => []
  | e :: events' => step e d :: snapshots events' (step e d)
  end.

Definition thoughts_count (d : t) : nat :=
  match agent_loop d with
  | Some a => length (AgentLoop.thoughts a)
  | None => 0%nat
  end.

(** What holds of a daemon whose clock has not gone backwards: elapsed time
    and cycles are not negative, at most 100 thoughts are kept, and the
    level is within [0, 1] and not above the metric of the current
    state. *)
Definition steady (d : t) : Prop :=
  (0 <= uptime (state d))%Q /\ 0 <= cycles_completed (state d) /\
  (thoughts_count d <= 100)%nat /\
  (0 <= consciousness_level (state d))%Q /\
  (consciousness_level (state d) <= 1)%Q /\
  (consciousness_level (state d)
   <= AgentLoop.consciousness (uptime (state d)) (cycles_completed (state d))
                              (thoughts_count d))%Q.

(** The consciousness level of the daemon at the start and after each
    event, as successive [get_status()] snapshots show it. *)
Definition levels (events : list event) (d : t) : list Q :=
  (fun d => consciousness_level (state d)) <$> (d :: snapshots events d).

Fixpoint nondecreasing (l : list Q) : Prop :=
  match l with
  | x :: (y :: _) as l' => (x <= y)%Q /\ nondecreasing l'
  | _ => True
  end.

(** The elapsed times read by the heartbeats of a run, in order. *)
Fixpoint elapsed_times (events : list event) : list Q :=
  match events with
  | [] => []
  | Heartbeat elapsed :: events' => elapsed :: elapsed_times events'
  | _ :: events' => elapsed_times events'
  end.

End TransformersDaemon.

(** ** agent_loop.py: the behaviors *)

Module Behaviors.

(** An entry of [config['behaviors']]: [name] is required, [interval]
    is 300 and [enabled] is [True] when absent. *)
Record behavior : Type := mk_behavior {
  name : string;
  interval : option Q;
  enabled : option bool
}.

Definition is_enabled (b : behavior) : bool := default true (enabled b).
Definition interval_of (b : behavior) : Q := default 300%Q (interval b).

(** The agent loop with the two attributes the behaviors use. *)
Record t : Type := mk {
  agent : AgentLoop.t;
  behaviors : list behavior;
  behavior_timers : gmap string Q
}.

(** [{b['name']: 0 for b in self.behaviors if b.get('enabled', True)}] *)
Definition initial_timers (behaviors : list behavior) : gmap string Q :=
  foldr (fun b timers => <[name b := 0%Q]> timers) ∅
        (filter (fun b => is_enabled b = true) behaviors).

Definition __init__ (consciousness_mode : option bool)
    (behaviors : list behavior) : t :=
  mk (AgentLoop.__init__ consciousness_mode) behaviors
     (initial_timers behaviors).

(** [self.pending_actions.append(action)] *)
Definition append_action (action : gmap string value) (a : AgentLoop.t)
  : AgentLoop.t :=
  AgentLoop.set_pending (AgentLoop.pending_actions a ++ [action]) a.

(** The actions of [_analyze_code], [_update_documentation] and
    [_initiate_conversation]; the list of findings is one text. *)
Definition analysis_action (stamp : string) : gmap string value :=
  {[ "type" := VStr "log_analysis";
     "data" := VData [("timestamp", stamp); ("type", "code_analysis");
                      ("findings",
                       "Codebase structure appears healthy; No immediate issues detected; Continuing autonomous monitoring")] ]}.

Definition documentation_action (stamp : string) : gmap string value :=
  {[ "type" := VStr "documentation_check"; "timestamp" := VStr stamp ]}.

Definition conversation_action (message stamp : string)
  : gmap string value :=
  {[ "type" := VStr "conversation"; "message" := VStr message;
     "timestamp" := VStr stamp ]}.

(** [_execute_behavior(behavior)]; [stamp] is the text of
    [datetime.now().isoformat()] and [message] the conversation starter
    [random.choice] picked. *)
Definition _execute_behavior (stamp message : string) (b : behavior)
    (a : AgentLoop.t) : AgentLoop.t :=
  if String.eqb (name b) "code_analyzer" then
    append_action (analysis_action stamp) a
  else if String.eqb (name b) "model_optimizer" then a
  else if String.eqb (name b) "documentation_updater" then
    append_action (documentation_action stamp) a
  else if String.eqb (name b) "issue_responder" then a
  else if String.eqb (name b) "conversation_initiator" then
    append_action (conversation_action message stamp) a
  else a.

(** The loop of [_execute_behaviors()] at the instant [now] (seconds since
    the epoch).  Besides the agent and the timers it returns the names of
    the behaviors it executed, in order. *)
Fixpoint behaviors_from (bs : list behavior) (now : Q) (stamp message : string)
    (a : AgentLoop.t) (timers : gmap string Q)
  : AgentLoop.t * gmap string Q * list string * res unit :=
  match bs with
  | [] => (a, timers, [], Ok ())
  | b :: bs' =>
      if negb (is_enabled b) then behaviors_from bs' now stamp message a timers
      else
        match timers !! name b with
        | None => (a, timers, [], Raise (KeyError (name b)))
        | Some last =>
            if Qle_bool (interval_of b) (now - last) then
              let '(a', timers', executed, r) :=
                behaviors_from bs' now stamp message
                  (_execute_behavior stamp message b a)
                  (<[name b := now]> timers) in
              (a', timers', name b :: executed, r)
            else behaviors_from bs' now stamp message a timers
        end
  end.

Definition _execute_behaviors (now : Q) (stamp message : string) (s : t)
  : t * list string * res unit :=
  let '(a, timers, executed, r) :=
    behaviors_from (behaviors s) now stamp message (agent s)
                   (behavior_timers s) in
  (mk a (behaviors s) timers, executed, r).

(** The behaviors that are enabled and whose interval has elapsed
    according to [timers]. *)
Definition ready (now : Q) (timers : gmap string Q) (b : behavior) : bool :=
  is_enabled b
  && match timers !! name b with
     | Some last => Qle_bool (interval_of b) (now - last)
     | None => false
     end.

End Behaviors.

(** ** api_server.py and event_monitor.py: the users of the agent loop *)

Module APIServer.

(** The handler of [GET /models]: the models and their count. *)
Definition get_models (d : TransformersDaemon.t) : list string * nat :=
  match TransformersDaemon.model_manager d with
  | Some m =>
      let models := ModelManager.get_loaded_models m in
      (models, length models)
  | None => ([], 0%nat)
  end.

(** The handler of [GET /thoughts]. *)
Definition get_thoughts (d : TransformersDaemon.t)
  : list AgentLoop.thought * nat :=
  match TransformersDaemon.agent_loop d with
  | Some a =>
      let thoughts := AgentLoop.get_recent_thoughts 20 a in
      (thoughts, length thoughts)
  | None => ([], 0%nat)
  end.

(** The handler of [POST /interact] on the request body [message]. *)
Definition interact_action (message : gmap string value) (stamp : string)
  : gmap string value :=
  {[ "type" := VStr "user_interaction";
     "message" := default (VStr "") (message !! "message");
     "timestamp" := VStr stamp ]}.

Definition interact (message : gmap string value) (stamp : string)
    (d : TransformersDaemon.t) : TransformersDaemon.t :=
  TransformersDaemon.mk (TransformersDaemon.running d)
    (TransformersDaemon.state d)
    (AgentLoop.add_task (interact_action message stamp)
       <$> TransformersDaemon.agent_loop d)
    (TransformersDaemon.model_manager d).

End APIServer.

Module EventMonitor.

(** What [path.glob(pattern)] yields for one entry: its path, whether it
    is a file and its modification time. *)
Record entry : Type := mk_entry {
  entry_path : string;
  is_file : bool;
  mtime : datetime
}.

(** [datetime.min] *)
Definition datetime_min : datetime := mk_datetime 1 1 1 0 0 0 0.

(** Noon of the first of January of a year, for the examples. *)
Definition at_noon (y : Z) : datetime := mk_datetime y 1 1 12 0 0 0.

(** The files of the listing modified after [since]. *)
Definition recent (since : datetime) (listing : list entry) : list string :=
  entry_path <$>
    filter (fun e => is_file e = true /\ dt_ltb since (mtime e) = true) listing.

(** The action of a scan; the list of files is a [VData] whose fields all
    have the key ["file"]. *)
Definition file_change_action (path : string) (files : list string)
    (stamp : string) : gmap string value :=
  {[ "type" := VStr "file_change_event"; "path" := VStr path;
     "files" := VData ((fun f => ("file"%string, f)) <$> take 10 files);
     "timestamp" := VStr stamp ]}.

(** [_scan_directory(path, events, recursive)].  [path] is [str(path)],
    [listing] what the walk over [path.glob(pattern)] met, or the
    exception that interrupted it, and [now] the [datetime.now()] stored
    as the last check. *)
Definition _scan_directory (path : string) (listing : res (list entry))
    (now : datetime) (stamp : string) (last_check : gmap string datetime)
    (agent_loop : option AgentLoop.t)
  : gmap string datetime * option AgentLoop.t :=
  match listing with
  | Raise e => (last_check, agent_loop)
  | Ok entries =>
      let recent_files :=
        recent (default datetime_min (last_check !! path)) entries in
      (<[path := now]> last_check,
       match recent_files with
       | [] => agent_loop
       | _ => AgentLoop.add_task (file_change_action path recent_files stamp)
                <$> agent_loop
       end)
  end.

End EventMonitor.

(** ** Reading aids for the properties below *)

(** The thought log of the daemon holds at most 100 thoughts and
    [state["last_thought"]] is the text of its newest entry. *)
Definition log_consistent (d : TransformersDaemon.t) : Prop :=
  match TransformersDaemon.agent_loop d with
  | Some a =>
      (length (AgentLoop.thoughts a) <= 100)%nat /\
      last_thought (TransformersDaemon.state d)
      = AgentLoop.th_thought <$> last (AgentLoop.thoughts a)
  | None => last_thought (TransformersDaemon.state d) = None
  end.

(** The drain logs the action as one of an unknown type. *)
Definition unknown_to_agent (action : gmap string value) : Prop :=
  exists action_type, AgentLoop.handle action = AgentLoop.LogUnknownType action_type.

(** The drain handles the action: its log line is neither an error nor
    that of an unknown type. *)
Definition handled_by_agent (action : gmap string value) : Prop :=
  match AgentLoop.handle action with
  | AgentLoop.LogAnalysis _ | AgentLoop.LogConversation _
  | AgentLoop.LogDocumentationCheck => True
  | _ => False
  end.

(** The task names one of the three actions that post to the queue. *)
Definition enqueues (task : gmap string value) : bool :=
  let action := Some (default (VStr "") (task !! "action")) in
  AgentLoop.value_is_str action "generate_status_report"
  || AgentLoop.value_is_str action "analyze_code_health"
  || AgentLoop.value_is_str action "benchmark_models".

(** Every enabled behavior has a timer, and the enabled behaviors have
    distinct names. *)
Definition timers_cover (bs : list Behaviors.behavior)
    (timers : gmap string Q) : Prop :=
  forall b, b ∈ bs -> Behaviors.is_enabled b = true ->
            is_Some (timers !! Behaviors.name b).

Definition distinct_names (bs : list Behaviors.behavior) : Prop :=
  NoDup (Behaviors.name
           <$> filter (fun b => Behaviors.is_enabled b = true) bs).

(** For every loaded model the two counters agree: [usage_count] in
    [loaded_models] and [total_inferences] in [model_usage]. *)
Definition counts_agree (m : ModelManager.t) : Prop :=
  forall model_name info u,
    Dict.get model_name (ModelManager.loaded_models m) = Some info ->
    Dict.get model_name (ModelManager.model_usage m) = Some u ->
    ModelManager.usage_count info = ModelManager.total_inferences u.

(** What every manager reached from a fresh one satisfies, whatever its
    capacity. *)
Definition sound (m : ModelManager.t) : Prop :=
  ModelManager.wf m /\
  ModelManager.size m <= Z.max 1 (ModelManager.max_loaded m) /\
  counts_agree m.

(** The state is within the ranges the metric was written for: at most
    one day of uptime and at most 10000 completed cycles. *)
Definition in_range (d : TransformersDaemon.t) : Prop :=
  (uptime (TransformersDaemon.state d) <= 86400)%Q /\
  cycles_completed (TransformersDaemon.state d) <= 10000.

(** An update of the level at [d] stores the clamped formula (nothing
    changes when the agent loop is disabled). *)
Definition updates_to_clamped (d : TransformersDaemon.t) : Prop :=
  let d' := TransformersDaemon.step TransformersDaemon.UpdateConsciousness d in
  (consciousness_level (TransformersDaemon.state d')
   == match TransformersDaemon.agent_loop d with
      | Some _ =>
          AgentLoop.consciousness_clamped
            (uptime (TransformersDaemon.state d))
            (cycles_completed (TransformersDaemon.state d))
            (TransformersDaemon.thoughts_count d)
      | None => consciousness_level (TransformersDaemon.state d)
      end)%Q.

(** The number of heartbeats among the events. *)
Definition heartbeats (events : list TransformersDaemon.event) : nat :=
  length (TransformersDaemon.elapsed_times events).

(** The daemon once all the events have happened. *)
Definition after_events (events : list TransformersDaemon.event)
    (d : TransformersDaemon.t) : TransformersDaemon.t :=
  default d (last (TransformersDaemon.snapshots events d)).

(** What [GET /thoughts] answers agrees with the daemon: the count is the
    length of the list, at most 20 and the size of the log when that is
    smaller, and the newest thought listed is [state["last_thought"]]. *)
Definition thoughts_answer_agrees (d : TransformersDaemon.t) : Prop :=
  let '(listed, count) := APIServer.get_thoughts d in
  count = length listed /\
  count = Nat.min 20 (TransformersDaemon.thoughts_count d) /\
  last_thought (TransformersDaemon.state d)
  = AgentLoop.th_thought <$> last listed.

(** The action carries a list of at most 10 files. *)
Definition at_most_10_files (action : gmap string value) : Prop :=
  exists files, action !! "files" = Some (VData files)
                /\ (length files <= 10)%nat.

(** * Properties *)

(** ** The cron matcher *)

Section Matcher.
Import TaskScheduler.

Lemma int_unsigned_raises s e : int_unsigned s = Raise e -> e = ValueError.
Proof.
  unfold int_unsigned.
  destruct (digits_from 0 false 0 s) as [[v n]|]; [|congruence].
  destruct (int_max_str_digits <? n)%nat; congruence.
Qed.

Lemma int_raises s e : int_ s = Raise e -> e = ValueError.
Proof.
  unfold int_. intros H.
  destruct (strip s) as [|c d].
  - by apply int_unsigned_raises in H.
  - destruct (Ascii.eqb_spec c "+") as [->|Hp]; [by apply int_unsigned_raises in H|].
    destruct (Ascii.eqb_spec c "-") as [->|Hm].
    + simpl in H. destruct (int_unsigned d) eqn:E; [discriminate|].
      simpl in H. injection H as <-. by apply int_unsigned_raises in E.
    + assert (int_unsigned (String c d) = Raise e) as H'.
      { revert H. destruct c as [[] [] [] [] [] [] [] []]; try done. }
      by apply int_unsigned_raises in H'.
Qed.

Lemma field_differs_raises f c e : field_differs f c = Raise e -> e = ValueError.
Proof.
  unfold field_differs. destruct (String.eqb f "*"); simpl; [done|].
  destruct (int_ f) eqn:E; simpl; [done|].
  intros [= <-]. by apply int_raises in E.
Qed.

Lemma field_differs_matches f c :
  field_differs f c = Ok false <-> field_matches f c = true.
Proof.
  unfold field_differs, field_matches.
  destruct (String.eqb f "*"); simpl; [done|].
  destruct (int_ f); simpl; [|done].
  destruct (a =? c); simpl; split; congruence.
Qed.

Lemma field_differs_cases f c :
  field_differs f c = Ok (negb (field_matches f c))
  \/ (field_differs f c = Raise ValueError /\ field_matches f c = false).
Proof.
  unfold field_differs, field_matches.
  destruct (String.eqb f "*"); simpl; [by left|].
  destruct (int_ f) eqn:E; simpl; [by left|].
  right. by rewrite (int_raises _ _ E).
Qed.

(** With five fields the answer is the conjunction of the minute and the
    hour test; whatever fails to parse is turned into [False]. *)
Lemma should_execute_five task spec mi h d mo w t :
  task !! "schedule" = Some (VStr spec) ->
  split spec = [mi; h; d; mo; w] ->
  _should_execute task t
  = Ok (field_matches mi (minute t) && field_matches h (hour t)).
Proof.
  intros Hs Hp. unfold _should_execute, _should_execute_try.
  rewrite Hs. simpl. rewrite Hp.
  destruct (field_differs_cases mi (minute t)) as [->|[-> ->]]; simpl; [|done].
  destruct (field_matches mi (minute t)); simpl; [|done].
  destruct (field_differs_cases h (hour t)) as [->|[-> ->]]; simpl; [|done].
  by destruct (field_matches h (hour t)).
Qed.

Lemma should_execute_wrong_count task spec t :
  task !! "schedule" = Some (VStr spec) ->
  length (split spec) <> 5%nat ->
  _should_execute task t = Ok false.
Proof.
  intros Hs Hn. unfold _should_execute, _should_execute_try.
  rewrite Hs. simpl.
  destruct (split spec) as [|? [|? [|? [|? [|? [|? ?]]]]]]; simpl in *; done.
Qed.

Lemma should_execute_not_str task t :
  (forall spec, task !! "schedule" <> Some (VStr spec)) ->
  _should_execute task t = Ok false.
Proof.
  intros Hs. unfold _should_execute.
  destruct (task !! "schedule") as [[]|] eqn:E; simpl; try done.
  by destruct (Hs s).
Qed.

Lemma should_execute_total task t : exists b, _should_execute task t = Ok b.
Proof.
  destruct (task !! "schedule") as [v|] eqn:E.
  - destruct v as [| | |spec|];
      try (exists false; apply should_execute_not_str; congruence).
    destruct (decide (length (split spec) = 5%nat)) as [Hl|Hl].
    + destruct (split spec) as [|mi [|h [|d [|mo [|w [|? ?]]]]]] eqn:Hp;
        try done.
      eexists. by eapply should_execute_five.
    + eexists. by eapply should_execute_wrong_count.
  - exists false. apply should_execute_not_str. congruence.
Qed.

(** C1 (as the code has it): [_should_execute] always returns a boolean,
    and it returns [True] exactly when the schedule is a string of five
    whitespace-separated fields whose minute field is ["*"] or an integer
    equal to the minute of the instant and whose hour field is ["*"] or an
    integer equal to its hour.  The day, month and weekday fields and the
    other components of the instant are not looked at. *)
Theorem should_execute_minute_hour (task : gmap string value) (t : datetime) :
  (exists b, _should_execute task t = Ok b) /\
  (_should_execute task t = Ok true <->
   exists spec mi h d mo w,
     task !! "schedule" = Some (VStr spec) /\
     split spec = [mi; h; d; mo; w] /\
     field_matches mi (minute t) = true /\
     field_matches h (hour t) = true).
Proof.
  split; [apply should_execute_total|]. split.
  - intros Hx.
    destruct (task !! "schedule") as [v|] eqn:E;
      [|rewrite should_execute_not_str in Hx; congruence].
    destruct v as [| | |spec|];
      try (rewrite should_execute_not_str in Hx; congruence).
    destruct (decide (length (split spec) = 5%nat)) as [Hl|Hl];
      [|by rewrite (should_execute_wrong_count _ _ _ E Hl) in Hx].
    destruct (split spec) as [|mi [|h [|d [|mo [|w [|? ?]]]]]] eqn:Hp;
      try done.
    rewrite (should_execute_five _ _ _ _ _ _ _ _ E Hp) in Hx.
    injection Hx as Hx. apply andb_true_iff in Hx as [? ?].
    by exists spec, mi, h, d, mo, w.
  - intros (spec & mi & h & d & mo & w & Hs & Hp & Hm & Hh).
    rewrite (should_execute_five _ _ _ _ _ _ _ _ Hs Hp), Hm, Hh. done.
Qed.

(** C1 (as the specification words it) fails: the well-formed schedule
    ["0 9 1 * *"] asks for the first day of the month, and the matcher
    fires at 09:00 on 2 January 2024, where the day field 1 differs from
    the day of the instant. *)
Lemma should_execute_ignores_day :
  well_formed "0 9 1 * *" = true /\
  _should_execute {[ "schedule" := VStr "0 9 1 * *" ]}
                  (mk_datetime 2024 1 2 9 0 0 0) = Ok true /\
  fires_all_five "0 9 1 * *" (mk_datetime 2024 1 2 9 0 0 0) = false.
Proof. repeat split; vm_compute; reflexivity. Qed.

Lemma field_ill_formed_no_match f c :
  field_well_formed f = false -> field_matches f c = false.
Proof.
  unfold field_well_formed, field_matches.
  destruct (String.eqb f "*"); simpl; [done|].
  by destruct (int_ f).
Qed.

(** C9 (as the code has it): a schedule that does not have five fields, or
    whose minute or hour field is neither ["*"] nor an integer, never
    fires: at every instant [_should_execute] returns [False], and it
    returns normally. *)
Theorem malformed_minute_hour_never_fires
    (task : gmap string value) (spec : string) (t : datetime) :
  task !! "schedule" = Some (VStr spec) ->
  malformed_minute_hour spec = true ->
  _should_execute task t = Ok false.
Proof.
  intros Hs Hm. unfold malformed_minute_hour in Hm.
  destruct (decide (length (split spec) = 5%nat)) as [Hl|Hl];
    [|by eapply should_execute_wrong_count].
  destruct (split spec) as [|mi [|h [|d [|mo [|w [|? ?]]]]]] eqn:Hp; try done.
  rewrite (should_execute_five _ _ _ _ _ _ _ _ Hs Hp).
  apply orb_true_iff in Hm as [Hm|Hm]; apply negb_true_iff in Hm;
    rewrite (field_ill_formed_no_match _ _ Hm); [done|].
  by rewrite andb_false_r.
Qed.

(** The spec ["a b"] never fires, here at 09:00 on 2 January 2024. *)
Lemma a_b_never_fires :
  _should_execute {[ "schedule" := VStr "a b" ]}
                  (mk_datetime 2024 1 2 9 0 0 0) = Ok false.
Proof.
  apply (malformed_minute_hour_never_fires _ "a b"); reflexivity.
Defined.

(** C9 (as the specification words it) fails: ["* * a b c"] is malformed,
    its day, month and weekday fields being neither ["*"] nor integers,
    and it fires, the three fields never being parsed. *)
Lemma malformed_day_field_fires :
  malformed "* * a b c" = true /\
  _should_execute {[ "schedule" := VStr "* * a b c" ]}
                  (mk_datetime 2024 1 2 9 0 0 0) = Ok true.
Proof. split; vm_compute; reflexivity. Qed.

End Matcher.

(** ** The thought log and the action queue *)

Section Agent.
Import AgentLoop.

Lemma slice_from_neg {A} (l : list A) (n : Z) :
  1 <= n -> slice_from (- n) l = drop (length l - Z.to_nat n) l.
Proof.
  intros Hn. unfold slice_from.
  destruct (Z.ltb_spec (- n) 0) as [_|?]; [|lia].
  f_equal. lia.
Qed.

Lemma slice_from_nonneg {A} (l : list A) (n : Z) :
  0 <= n -> slice_from n l = drop (Z.to_nat n) l.
Proof.
  intros Hn. unfold slice_from.
  destruct (Z.ltb_spec n 0) as [?|_]; [lia|].
  destruct (Z.min_spec n (Z.of_nat (length l))) as [[? ->]|[? ->]]; [done|].
  rewrite Nat2Z.id, !drop_ge; [done|lia|lia].
Qed.

(** C10: [get_recent_thoughts(count)] returns the last [count] thoughts
    (all of them when there are fewer) when [count >= 1]; for [count = 0]
    it returns the whole log, [thoughts[-0:]] being [thoughts[0:]]; a
    negative [count] drops the first [-count] thoughts. *)
Theorem get_recent_thoughts_slice (a : AgentLoop.t) (count : Z) :
  get_recent_thoughts count a =
  if 1 <=? count then drop (length (thoughts a) - Z.to_nat count) (thoughts a)
  else if count =? 0 then thoughts a
  else drop (Z.to_nat (- count)) (thoughts a).
Proof.
  unfold get_recent_thoughts.
  destruct (Z.leb_spec 1 count) as [H1|H1]; [by apply slice_from_neg|].
  destruct (Z.eqb_spec count 0) as [->|H0].
  - by rewrite slice_from_nonneg.
  - rewrite slice_from_nonneg; [done|lia].
Qed.

Lemma drain_id pending : drain pending = pending.
Proof. induction pending as [|x q IH]; simpl; congruence. Qed.


Lemma pending_foldl_add_task tasks a :
  pending_actions (foldl (fun acc t => add_task t acc) a tasks)
  = pending_actions a ++ tasks.
Proof.
  revert a. induction tasks as [|t tasks IH]; intros a; simpl.
  - by rewrite app_nil_r.
  - rewrite IH. simpl. by rewrite <- app_assoc.
Qed.



End Agent.

(** ** Shutdown *)

Section Shutdown.
Import TransformersDaemon.

(** C4 (as the code has it): a second [shutdown()] leaves the daemon
    exactly as the first one left it, with status ["shutdown"], the
    running flag cleared and the model cache empty ([loaded_models] and
    [model_usage] cleared, whatever they held); like the first call it
    ends in [sys.exit(0)], that is, it raises [SystemExit]. *)
Theorem shutdown_twice (d : TransformersDaemon.t) :
  let d1 := (shutdown d).1 in
  (shutdown d1).1 = d1 /\
  status (state d1) = "shutdown"%string /\ running d1 = false /\
  ModelManager.loaded_models <$> model_manager d1
  = (fun _ => []) <$> model_manager d /\
  ModelManager.model_usage <$> model_manager d1
  = (fun _ => []) <$> model_manager d /\
  (shutdown d).2 = Raise (SystemExit 0) /\
  (shutdown d1).2 = Raise (SystemExit 0).
Proof.
  destruct d as [r ds al [m|]]; repeat split.
Qed.

(** C4 (as the specification words it) fails: on a started daemon the
    second [shutdown()] does not return, it raises [SystemExit(0)], which
    [except Exception] does not absorb. *)
Lemma second_shutdown_raises :
  let d := start true None None None TransformersDaemon.__init__ in
  (shutdown (shutdown d).1).2 = Raise (SystemExit 0) /\
  (forall u, (shutdown (shutdown d).1).2 <> Ok u) /\
  is_Exception (SystemExit 0) = false.
Proof. repeat split; done. Qed.

End Shutdown.

(** ** The poll loop of the scheduler *)

Section Polling.
Import TaskScheduler.

Lemma check_from_count k tasks now stamp al i :
  length (filter (fun j => j = i) (check_from k tasks now stamp al).2)
  = if (k <=? i)%nat && due tasks (i - k) now then 1%nat else 0%nat.
Proof.
  revert k al. induction tasks as [|task tasks IH]; intros k al; simpl.
  { unfold due. rewrite lookup_nil. by rewrite andb_false_r. }
  destruct (should_execute_total task now) as [b Hb]. rewrite Hb.
  assert (due (task :: tasks) (i - k) now
          = if (i - k =? 0)%nat then b else due tasks (i - S k) now) as Hd.
  { unfold due. destruct (i - k)%nat as [|n] eqn:E; simpl.
    - rewrite Hb. by destruct b.
    - by replace (i - S k)%nat with n by lia. }
  rewrite Hd. clear Hd.
  destruct b.
  - pose proof (IH (S k) (_execute_task stamp task al)) as IH'.
    destruct (check_from (S k) tasks now stamp _) as [al' fired].
    cbn [snd] in *. rewrite filter_cons.
    case_decide as Hk; cbn [length]; rewrite IH'.
    + subst i. rewrite Nat.leb_refl, Nat.sub_diag.
      destruct (Nat.leb_spec (S k) k); [lia|done].
    + destruct (Nat.leb_spec (S k) i), (Nat.leb_spec k i);
        try lia; cbn [andb]; [|done].
      destruct (Nat.eqb_spec (i - k) 0); [lia|done].
  - rewrite IH.
    destruct (Nat.leb_spec (S k) i), (Nat.leb_spec k i); try lia; cbn [andb].
    + destruct (Nat.eqb_spec (i - k) 0); [lia|done].
    + destruct (Nat.eqb_spec (i - k) 0); [done|lia].
    + done.
Qed.

Lemma fired_in_stamped now fired i m :
  fired_in ((fun j => (now, j)) <$> fired) i m
  = if decide (trunc_minute now = m)
    then length (filter (fun j => j = i) fired) else 0%nat.
Proof.
  unfold fired_in. induction fired as [|j fired IH]; [by case_decide|].
  rewrite fmap_cons, !filter_cons. cbn [fst snd].
  destruct (decide (trunc_minute now = m)) as [Hm|Hm].
  - destruct (decide (j = i)) as [Hj|Hj].
    + rewrite decide_True by done. simpl. by rewrite IH.
    + rewrite decide_False by tauto. done.
  - rewrite decide_False by tauto. done.
Qed.

(** The scheduler keeps no last-fired instant: within a minute a task
    fires once for every poll of that minute that finds it due. *)
Lemma fired_in_run tasks polls al i m :
  fired_in (run tasks polls al).2 i m = due_polls tasks polls i m.
Proof.
  revert al. induction polls as [|[now stamp] polls IH]; intros al; [done|].
  simpl. unfold _check_and_execute_tasks.
  pose proof (check_from_count 0 tasks now stamp al i) as Hc.
  destruct (check_from 0 tasks now stamp al) as [al1 fired].
  specialize (IH al1). destruct (run tasks polls al1) as [al2 later].
  cbn [snd] in *. unfold fired_in in *. rewrite filter_app, length_app.
  fold (fired_in ((fun j => (now, j)) <$> fired) i m).
  rewrite fired_in_stamped, IH, Hc, Nat.sub_0_r.
  unfold due_polls. rewrite filter_cons. cbn [fst Nat.leb andb].
  destruct (decide (trunc_minute now = m)) as [Hm|Hm].
  - destruct (due tasks i now).
    + rewrite decide_True by done. done.
    + rewrite decide_False by (intros [_ ?]; done). done.
  - rewrite decide_False by tauto. done.
Qed.

Lemma no_poll_in_minute {A} (f : A -> datetime) (Q : A -> Prop)
    `{forall x, Decision (Q x)} (l : list A) (m : datetime) :
  m ∉ f <$> l -> filter (fun p => f p = m /\ Q p) l = [].
Proof.
  induction l as [|x l IH]; [done|].
  rewrite fmap_cons. intros [Hx Hl]%not_elem_of_cons.
  rewrite filter_cons_False; [by apply IH|].
  intros [Hm _]. by apply Hx.
Qed.

Lemma at_most_one_in_minute {A} (f : A -> datetime) (Q : A -> Prop)
    `{forall x, Decision (Q x)} (l : list A) (m : datetime) :
  NoDup (f <$> l) ->
  (length (filter (fun p => f p = m /\ Q p) l) <= 1)%nat.
Proof.
  induction l as [|x l IH]; simpl; [lia|].
  intros [Hx Hl]%NoDup_cons. rewrite filter_cons.
  case_decide as Hm; simpl; [|by apply IH].
  destruct Hm as [<- _]. rewrite no_poll_in_minute; [simpl; lia|done].
Qed.

(** C6 (as the code has it): no last-fired instant is kept, and a task
    fires at every poll that finds it due; within one wall-clock minute it
    fires as often as polls of that minute find it due, hence at most once
    when no two polls of the run fall in the same minute. *)
Theorem fires_once_when_polls_in_distinct_minutes
    (tasks : list (gmap string value)) (polls : list (datetime * string))
    (al : option AgentLoop.t) (i : nat) (m : datetime) :
  NoDup ((fun p => trunc_minute p.1) <$> polls) ->
  fired_in (run tasks polls al).2 i m = due_polls tasks polls i m /\
  (fired_in (run tasks polls al).2 i m <= 1)%nat.
Proof.
  intros Hnd. split; [apply fired_in_run|].
  rewrite fired_in_run. unfold due_polls.
  by apply (at_most_one_in_minute (fun p => trunc_minute p.1)).
Qed.

(** An every-minute task polled at 09:00:05 and, the next minute, at
    09:01:05 fires once in the minute 09:00. *)
Lemma every_minute_task_fires_once :
  (fired_in (run [ {[ "schedule" := VStr "* * * * *";
                      "action" := VStr "generate_status_report" ]} ]
                 [ (mk_datetime 2024 1 2 9 0 5 0, "09:00:05"%string);
                   (mk_datetime 2024 1 2 9 1 5 0, "09:01:05"%string) ]
                 (Some (AgentLoop.__init__ None))).2
            0 (mk_datetime 2024 1 2 9 0 0 0) <= 1)%nat.
Proof.
  apply fires_once_when_polls_in_distinct_minutes.
  apply (bool_decide_unpack _). vm_compute. exact I.
Defined.

(** C6 (as the specification words it) fails: two polls in the minute
    09:00 of 2 January 2024, at 09:00:05 and 09:00:55, both find the
    every-minute task due, and it fires twice within that minute; two
    reports reach the queue of the agent loop. *)
Lemma every_minute_task_fires_twice :
  let tasks : list (gmap string value) :=
    [ {[ "name" := VStr "t1"; "schedule" := VStr "* * * * *";
         "action" := VStr "generate_status_report" ]} ] in
  let polls := [ (mk_datetime 2024 1 2 9 0 5 0, "09:00:05"%string);
                 (mk_datetime 2024 1 2 9 0 55 0, "09:00:55"%string) ] in
  let '(al, firings) := run tasks polls (Some (AgentLoop.__init__ None)) in
  firings = [ (mk_datetime 2024 1 2 9 0 5 0, 0%nat);
              (mk_datetime 2024 1 2 9 0 55 0, 0%nat) ] /\
  fired_in firings 0 (mk_datetime 2024 1 2 9 0 0 0) = 2%nat /\
  (length <$> (AgentLoop.pending_actions <$> al)) = Some 2%nat.
Proof. vm_compute. repeat split. Qed.

End Polling.

(** ** The bounded model cache *)

Section Ordering.

Lemma lex_ltb_irrefl a : lex_ltb a a = false.
Proof.
  induction a as [|x a IH]; simpl; [done|].
  rewrite Z.ltb_irrefl, Z.eqb_refl, IH. done.
Qed.

Lemma lex_ltb_trans a b c :
  lex_ltb a b = true -> lex_ltb b c = true -> lex_ltb a c = true.
Proof.
  revert b c. induction a as [|x a IH]; intros [|y b] [|z c]; simpl; try done.
  intros H1 H2.
  apply orb_true_iff in H1 as [H1|[H1 H1']%andb_true_iff];
    apply orb_true_iff in H2 as [H2|[H2 H2']%andb_true_iff];
    apply orb_true_iff.
  - left. lia.
  - left. lia.
  - left. lia.
  - right. apply andb_true_iff. split; [lia|]. by apply (IH b).
Qed.

Lemma lex_ltb_trichotomy a b :
  lex_ltb a b = true \/ a = b \/ lex_ltb b a = true.
Proof.
  revert b. induction a as [|x a IH]; intros [|y b]; simpl; auto.
  destruct (Z.lt_trichotomy x y) as [H|[->|H]].
  - left. apply orb_true_iff. left. lia.
  - rewrite Z.ltb_irrefl, Z.eqb_refl. simpl.
    destruct (IH b) as [?|[->|?]]; auto.
  - right. right. apply orb_true_iff. left. lia.
Qed.

Lemma dt_ltb_trans a b c :
  dt_ltb a b = true -> dt_ltb b c = true -> dt_ltb a c = true.
Proof. apply lex_ltb_trans. Qed.

Lemma dt_ltb_irrefl a : dt_ltb a a = false.
Proof. apply lex_ltb_irrefl. Qed.

(** [a < b <= c] gives [a < c]. *)
Lemma dt_ltb_le_trans a b c :
  dt_ltb a b = true -> dt_ltb c b = false -> dt_ltb a c = true.
Proof.
  unfold dt_ltb. intros H1 H2.
  destruct (lex_ltb_trichotomy (dt_tuple a) (dt_tuple c)) as [?|[E|H3]]; [done| |].
  - rewrite <- E, H1 in H2. done.
  - rewrite (lex_ltb_trans _ _ _ H3 H1) in H2. done.
Qed.

(** [a <= b <= c] gives [a <= c]. *)
Lemma dt_leb_trans a b c :
  dt_ltb b a = false -> dt_ltb c b = false -> dt_ltb c a = false.
Proof.
  intros H1 H2. destruct (dt_ltb c a) eqn:H3; [|done].
  by rewrite (dt_ltb_le_trans _ _ _ H3 H1) in H2.
Qed.

End Ordering.

Section DictFacts.
Context {V : Type}.
Implicit Types (d : Dict.t V) (k : string).

Lemma dict_mem_keys k d : Dict.mem k d = true <-> k ∈ Dict.keys d.
Proof.
  unfold Dict.mem. induction d as [|[k' v] d IH]; simpl.
  - split; [done|]. by intros ?%elem_of_nil.
  - rewrite elem_of_cons. destruct (String.eqb_spec k k') as [->|Hne].
    + split; [by left|done].
    + rewrite IH. split; [by right|by intros [?|?]].
Qed.

Lemma dict_get_None k d : Dict.get k d = None <-> k ∉ Dict.keys d.
Proof.
  rewrite <- dict_mem_keys. unfold Dict.mem.
  destruct (Dict.get k d); split; done.
Qed.

Lemma dict_get_elem_of k v d : Dict.get k d = Some v -> (k, v) ∈ d.
Proof.
  induction d as [|[k' v'] d IH]; simpl; [done|].
  destruct (String.eqb_spec k k') as [->|?].
  - intros [= ->]. apply elem_of_cons. by left.
  - intros ?. apply elem_of_cons. right. by apply IH.
Qed.

Lemma dict_keys_set k v d :
  Dict.keys (Dict.set k v d)
  = if Dict.mem k d then Dict.keys d else Dict.keys d ++ [k].
Proof.
  unfold Dict.mem. induction d as [|[k' v'] d IH]; simpl; [done|].
  destruct (String.eqb_spec k k') as [->|?]; simpl; [done|].
  rewrite IH. by destruct (Dict.get k d).
Qed.

Lemma dict_length_set k v d :
  length (Dict.set k v d)
  = if Dict.mem k d then length d else S (length d).
Proof.
  unfold Dict.mem. induction d as [|[k' v'] d IH]; simpl; [done|].
  destruct (String.eqb_spec k k') as [->|?]; simpl; [done|].
  rewrite IH. by destruct (Dict.get k d).
Qed.

Lemma dict_get_set k k' v d :
  Dict.get k' (Dict.set k v d)
  = if String.eqb k' k then Some v else Dict.get k' d.
Proof.
  induction d as [|[k0 v0] d IH]; simpl.
  - by destruct (String.eqb k' k).
  - destruct (String.eqb_spec k k0) as [->|Hk]; simpl.
    + by destruct (String.eqb k' k0).
    + destruct (String.eqb_spec k' k0) as [->|Hk'].
      * destruct (String.eqb_spec k0 k); congruence.
      * apply IH.
Qed.

Lemma dict_length_remove k d :
  Dict.mem k d = true -> S (length (Dict.remove k d)) = length d.
Proof.
  unfold Dict.mem. induction d as [|[k' v'] d IH]; simpl; [done|].
  destruct (String.eqb_spec k k'); [done|].
  intros H. simpl. by rewrite IH.
Qed.

Lemma dict_remove_absent k d : Dict.mem k d = false -> Dict.remove k d = d.
Proof.
  unfold Dict.mem. induction d as [|[k' v'] d IH]; simpl; [done|].
  destruct (String.eqb_spec k k'); [done|].
  intros H. by rewrite IH.
Qed.

Lemma dict_keys_remove_subseteq k d :
  Dict.keys (Dict.remove k d) ⊆ Dict.keys d.
Proof.
  induction d as [|[k' v'] d IH]; simpl; [done|].
  destruct (String.eqb_spec k k'); simpl.
  - intros x ?. apply elem_of_cons. by right.
  - intros x [->|?]%elem_of_cons; apply elem_of_cons; [by left|].
    right. by apply IH.
Qed.

Lemma dict_NoDup_remove k d :
  NoDup (Dict.keys d) -> NoDup (Dict.keys (Dict.remove k d)).
Proof.
  induction d as [|[k' v'] d IH]; simpl; [done|].
  intros [Hk Hd]%NoDup_cons.
  destruct (String.eqb_spec k k'); simpl; [done|].
  apply NoDup_cons. split; [|by apply IH].
  intros Hin. by apply Hk, (dict_keys_remove_subseteq k).
Qed.

Lemma dict_get_remove k k' d :
  NoDup (Dict.keys d) ->
  Dict.get k' (Dict.remove k d)
  = if String.eqb k' k then None else Dict.get k' d.
Proof.
  induction d as [|[k0 v0] d IH]; simpl.
  - by destruct (String.eqb k' k).
  - intros [Hk Hd]%NoDup_cons.
    destruct (String.eqb_spec k k0) as [->|Hk0]; simpl.
    + destruct (String.eqb_spec k' k0) as [->|?]; [|done].
      by apply dict_get_None.
    + destruct (String.eqb_spec k' k0) as [->|?].
      * destruct (String.eqb_spec k0 k); congruence.
      * by apply IH.
Qed.

Lemma dict_NoDup_set k v d :
  NoDup (Dict.keys d) -> NoDup (Dict.keys (Dict.set k v d)).
Proof.
  intros Hd. rewrite dict_keys_set.
  destruct (Dict.mem k d) eqn:E; [done|].
  apply NoDup_app. repeat split; [done| |apply NoDup_singleton].
  intros x Hx ->%list_elem_of_singleton.
  apply dict_mem_keys in Hx. congruence.
Qed.

End DictFacts.

Lemma dict_keys_remove_eq {V W} k (d : Dict.t V) (d' : Dict.t W) :
  Dict.keys d = Dict.keys d' ->
  Dict.keys (Dict.remove k d) = Dict.keys (Dict.remove k d').
Proof.
  revert d'. induction d as [|[k0 v0] d IH]; intros [|[k1 v1] d']; simpl;
    try done.
  intros [= -> Hd]. destruct (String.eqb k k1); simpl; [done|].
  f_equal. by apply IH.
Qed.

Lemma dict_mem_keys_eq {V W} k (d : Dict.t V) (d' : Dict.t W) :
  Dict.keys d = Dict.keys d' -> Dict.mem k d = Dict.mem k d'.
Proof.
  intros Hk. apply eq_true_iff_eq. rewrite !dict_mem_keys. by rewrite Hk.
Qed.

Section Cache.
Import ModelManager.

Lemma min_from_least best items x :
  x ∈ best :: items ->
  dt_ltb (last_used x.2) (last_used (min_from best items).2) = false.
Proof.
  revert best x. induction items as [|item items IH]; intros best x; simpl.
  - intros ->%list_elem_of_singleton. apply dt_ltb_irrefl.
  - destruct (dt_ltb (last_used item.2) (last_used best.2)) eqn:E.
    + intros [->|Hx]%elem_of_cons; [|by apply IH].
      destruct (dt_ltb (last_used best.2)
                  (last_used (min_from item items).2)) eqn:E'; [|done].
      pose proof (dt_ltb_trans _ _ _ E E') as Hlt.
      rewrite (IH item item) in Hlt; [done|]. apply elem_of_cons. by left.
    + intros [->|[->|Hx]%elem_of_cons]%elem_of_cons.
      * apply IH, elem_of_cons. by left.
      * apply (dt_leb_trans _ (last_used best.2)); [|exact E].
        apply IH, elem_of_cons. by left.
      * apply IH, elem_of_cons. by right.
Qed.

Lemma min_from_first best items :
  min_from best items = best
  \/ exists before after,
       items = before ++ min_from best items :: after /\
       forall x, x ∈ best :: before ->
         dt_ltb (last_used (min_from best items).2) (last_used x.2) = true.
Proof.
  revert best. induction items as [|item items IH]; intros best; simpl;
    [by left|].
  destruct (dt_ltb (last_used item.2) (last_used best.2)) eqn:E.
  - right. destruct (IH item) as [->|(before & after & Hi & Hb)].
    + exists [], items. split; [done|].
      by intros x ->%list_elem_of_singleton.
    + exists (item :: before), after. split; [by rewrite Hi at 1|].
      intros x [->|Hx]%elem_of_cons; [|by apply Hb].
      apply (dt_ltb_trans _ (last_used item.2)); [|exact E].
      apply Hb, elem_of_cons. by left.
  - destruct (IH best) as [?|(before & after & Hi & Hb)]; [by left|].
    right. exists (item :: before), after. split; [by rewrite Hi at 1|].
    intros x [->|[->|Hx]%elem_of_cons]%elem_of_cons.
    + apply Hb, elem_of_cons. by left.
    + apply (dt_ltb_le_trans _ (last_used best.2)); [|exact E].
      apply Hb, elem_of_cons. by left.
    + apply Hb, elem_of_cons. by right.
Qed.

(** [_unload_least_used] picks the first of the oldest entries. *)
Lemma lru_entry_first_oldest used r :
  lru_entry used = Some r -> first_oldest r used.
Proof.
  destruct used as [|first others]; simpl; [done|]. intros [= <-]. split.
  - destruct (min_from_first first others) as [->|(before & after & Hi & Hb)].
    + exists [], others. split; [done|]. by intros x ?%elem_of_nil.
    + exists (first :: before), after. split; [by rewrite Hi at 1|done].
  - intros x Hx. by apply min_from_least.
Qed.

Lemma lru_entry_elem_of used r : lru_entry used = Some r -> r ∈ used.
Proof.
  intros ((before & after & -> & _) & _)%lru_entry_first_oldest.
  apply elem_of_app. right. apply elem_of_cons. by left.
Qed.

Lemma lru_entry_None used : lru_entry used = None -> used = [].
Proof. by destruct used. Qed.

Lemma unload_wf m lru :
  wf m -> lru_entry (model_usage m) = Some lru ->
  _unload_least_used m = (without lru.1 m, Ok ()).
Proof.
  intros [Hk _] Hl. unfold _unload_least_used, Dict.del. rewrite Hl.
  assert (Dict.mem lru.1 (model_usage m) = true) as Hu.
  { apply dict_mem_keys, list_elem_of_fmap. exists lru.
    split; [done|by apply lru_entry_elem_of]. }
  by rewrite (dict_mem_keys_eq _ _ _ Hk), Hu.
Qed.

Lemma unload_make_room m :
  wf m ->
  (if size m >=? max_loaded m then _unload_least_used m else (m, Ok ()))
  = (make_room m, Ok ()).
Proof.
  intros Hwf. unfold make_room. destruct (size m >=? max_loaded m); [|done].
  destruct (lru_entry (model_usage m)) as [lru|] eqn:E.
  - by apply unload_wf.
  - unfold _unload_least_used. by rewrite E.
Qed.

(** [load_model] on a model that is not loaded: room is made first, then
    the pipeline is built; a failure of the construction is turned into
    [None] after the room was made. *)
Lemma load_model_miss m w name task :
  wf m -> Dict.get name (loaded_models m) = None ->
  load_model w name task m =
  match pipeline_result w with
  | Ok model_pipe =>
      let info := mk_info model_pipe task (now_loaded_at w) 0 in
      (with_model name info (mk_usage (now_last_used w) 0) (make_room m),
       Ok (Some info))
  | Raise e =>
      (make_room m, if is_Exception e then Ok None else Raise e)
  end.
Proof.
  intros Hwf Hmiss. unfold load_model. rewrite Hmiss.
  fold (size m). rewrite (unload_make_room m Hwf).
  destruct (pipeline_result w) as [model_pipe|e]; simpl; [done|].
  by destruct (is_Exception e).
Qed.

Lemma load_model_hit m w name task info :
  Dict.get name (loaded_models m) = Some info ->
  load_model w name task m = (m, Ok (Some info)).
Proof. intros Hhit. unfold load_model. by rewrite Hhit. Qed.

Lemma wf_without k m : wf m -> wf (without k m).
Proof.
  intros [Hk Hn]. split; simpl.
  - by apply dict_keys_remove_eq.
  - by apply dict_NoDup_remove.
Qed.

Lemma wf_make_room m : wf m -> wf (make_room m).
Proof.
  intros Hwf. unfold make_room. destruct (size m >=? max_loaded m); [|done].
  destruct (lru_entry (model_usage m)); [by apply wf_without|done].
Qed.

Lemma wf_with_model name info u m : wf m -> wf (with_model name info u m).
Proof.
  intros [Hk Hn]. split; simpl.
  - rewrite !dict_keys_set, (dict_mem_keys_eq _ _ _ Hk), Hk. done.
  - by apply dict_NoDup_set.
Qed.

Lemma max_loaded_make_room m : max_loaded (make_room m) = max_loaded m.
Proof.
  unfold make_room. destruct (size m >=? max_loaded m); [|done].
  by destruct (lru_entry (model_usage m)).
Qed.

(** With a capacity of at least one, making room leaves a free place. *)
Lemma size_make_room K m :
  1 <= K -> bounded K m -> size (make_room m) <= K - 1.
Proof.
  intros HK (Hwf & HKm & Hs). unfold make_room. rewrite HKm.
  destruct (Z.geb_spec (size m) K) as [Hge|?]; [|lia].
  destruct (lru_entry (model_usage m)) as [lru|] eqn:E.
  - assert (Dict.mem lru.1 (loaded_models m) = true) as Hmem.
    { rewrite (dict_mem_keys_eq _ _ _ (proj1 Hwf)).
      apply dict_mem_keys, list_elem_of_fmap. exists lru.
      split; [done|by apply lru_entry_elem_of]. }
    apply dict_length_remove in Hmem. unfold size in *. simpl. lia.
  - apply lru_entry_None in E. destruct Hwf as [Hk _]. rewrite E in Hk.
    destruct (loaded_models m) eqn:El; [|done].
    unfold size in Hge. rewrite El in Hge. simpl in Hge. lia.
Qed.

Lemma get_make_room_None name m :
  wf m -> Dict.get name (loaded_models m) = None ->
  Dict.get name (loaded_models (make_room m)) = None.
Proof.
  intros Hwf Hmiss. unfold make_room.
  destruct (size m >=? max_loaded m); [|done].
  destruct (lru_entry (model_usage m)); [|done]. simpl.
  apply dict_get_None. intros Hin%dict_keys_remove_subseteq.
  by apply dict_get_None in Hmiss.
Qed.

Lemma bounded_load_model K m w name task :
  1 <= K -> bounded K m -> bounded K (load_model w name task m).1.
Proof.
  intros HK Hb. pose proof Hb as (Hwf & HKm & Hs).
  destruct (Dict.get name (loaded_models m)) as [info|] eqn:E.
  { by rewrite (load_model_hit _ _ _ _ _ E). }
  rewrite (load_model_miss _ _ _ _ Hwf E).
  pose proof (size_make_room K m HK Hb) as Hroom.
  assert (bounded K (make_room m)) as Hbr.
  { split; [by apply wf_make_room|]. rewrite max_loaded_make_room.
    split; [done|lia]. }
  destruct (pipeline_result w) as [model_pipe|e]; [|done]. simpl.
  split; [by apply wf_with_model, wf_make_room|].
  simpl. rewrite max_loaded_make_room. split; [done|].
  unfold size in *. simpl. rewrite dict_length_set.
  unfold Dict.mem. rewrite (get_make_room_None _ _ Hwf E). lia.
Qed.

Lemma except_none_fst {A} (r : ModelManager.t * res (option A)) :
  (except_none r).1 = r.1.
Proof. destruct r as [m [a|e]]; simpl; [done|]. by destruct (is_Exception e). Qed.

Lemma bounded_keys K m m' :
  bounded K m ->
  Dict.keys (loaded_models m') = Dict.keys (loaded_models m) ->
  Dict.keys (model_usage m') = Dict.keys (model_usage m) ->
  max_loaded m' = max_loaded m ->
  bounded K m'.
Proof.
  intros ([Hk Hn] & HK & Hs) Hl Hu Hm. repeat split.
  - by rewrite Hl, Hu.
  - by rewrite Hl.
  - by rewrite Hm.
  - unfold size in *. apply (f_equal length) in Hl.
    unfold Dict.keys in Hl. rewrite !length_fmap in Hl. by rewrite Hl.
Qed.

Lemma dict_keys_set_present {V} k (v v' : V) (d : Dict.t V) :
  Dict.get k d = Some v -> Dict.keys (Dict.set k v' d) = Dict.keys d.
Proof.
  intros Hg. rewrite dict_keys_set. unfold Dict.mem. by rewrite Hg.
Qed.

Lemma bounded_generate K m w prompt model_name :
  1 <= K -> bounded K m -> bounded K (generate w prompt model_name m).1.
Proof.
  intros HK Hb. unfold generate. rewrite except_none_fst.
  set (name := match model_name with
               | Some n => n
               | None => default "gpt2"%string (default_model m)
               end).
  assert (exists m1 loaded,
    (if negb (Dict.mem name (loaded_models m))
     then load_model w name "text-generation" m
     else (m, Ok None)) = (m1, loaded) /\ bounded K m1) as (m1 & loaded & -> & Hb1).
  { destruct (negb (Dict.mem name (loaded_models m))).
    - pose proof (bounded_load_model K m w name "text-generation" HK Hb) as H1.
      destruct (load_model w name "text-generation" m) as [m1 loaded].
      by exists m1, loaded.
    - by exists m, (Ok None). }
  destruct loaded as [_|e]; [|done].
  destruct (Dict.get name (loaded_models m1)) as [info|] eqn:Hg; [|done].
  destruct (call_result w) as [result|e]; [|done].
  simpl.
  destruct (Dict.get name (model_usage m1)) as [u|] eqn:Hu; simpl.
  - apply (bounded_keys K m1); simpl; try done.
    + by apply (dict_keys_set_present _ info).
    + by apply (dict_keys_set_present _ u).
  - apply (bounded_keys K m1); simpl; try done.
    by apply (dict_keys_set_present _ info).
Qed.

Lemma bounded_init K default_model :
  0 <= K -> bounded K (__init__ (Some K) default_model).
Proof.
  intros HK. repeat split; simpl; [apply NoDup_nil_2|unfold size; simpl; lia].
Qed.

Lemma bounded_perform K c m :
  1 <= K -> bounded K m -> bounded K (perform c m).
Proof.
  intros HK Hb. destruct c; simpl.
  - by apply bounded_load_model.
  - by apply bounded_generate.
Qed.

Lemma bounded_states K calls m :
  1 <= K -> bounded K m -> Forall (bounded K) (states calls m).
Proof.
  intros HK. revert m. induction calls as [|c calls IH]; intros m Hb; simpl.
  - constructor.
  - constructor; [by apply bounded_perform|].
    by apply IH, bounded_perform.
Qed.

(** C2: with a capacity [K >= 1], after every call of a sequence of
    [load_model] and [generate] calls on a fresh manager, whatever the
    environment answers, at most [K] models are loaded. *)
Theorem cache_never_exceeds_capacity
    (K : Z) (default_model : option string) (calls : list call) :
  1 <= K ->
  Forall (fun m => Z.of_nat (length (get_loaded_models m)) <= K)
         (states calls (__init__ (Some K) default_model)).
Proof.
  intros HK.
  eapply Forall_impl; [apply (bounded_states K); [done|]|].
  - apply bounded_init. lia.
  - intros m (_ & _ & Hs). unfold get_loaded_models, Dict.keys.
    by rewrite length_fmap.
Qed.

(** Three loads into a cache of capacity 2. *)
Lemma three_loads_capacity_two :
  Forall (fun m => Z.of_nat (length (get_loaded_models m)) <= 2)
         (states [ LoadModel "A" "text-generation" (world_ok 0);
                   LoadModel "B" "text-generation" (world_ok 10);
                   LoadModel "C" "text-generation" (world_ok 20) ]
                 (__init__ (Some 2) None)).
Proof. apply cache_never_exceeds_capacity. lia. Defined.

(** C5 (as the code has it): when the construction of the pipeline fails
    on a miss, [load_model] absorbs the exception and returns [None]; no
    entry for the model is inserted.  Room was made before the
    construction: below capacity the cache is as it was, at capacity the
    first of its oldest entries has been unloaded. *)
Theorem load_failure_returns_none
    (m : ModelManager.t) (w : world) (name task : string) (e : exn) :
  wf m ->
  Dict.get name (loaded_models m) = None ->
  pipeline_result w = Raise e ->
  is_Exception e = true ->
  exists m',
    load_model w name task m = (m', Ok None) /\
    Dict.get name (loaded_models m') = None /\
    Dict.get name (model_usage m') = None /\
    (size m < max_loaded m -> m' = m) /\
    (max_loaded m <= size m ->
     forall lru, lru_entry (model_usage m) = Some lru ->
                 first_oldest lru (model_usage m) /\ m' = without lru.1 m).
Proof.
  intros Hwf Hmiss Hw He. exists (make_room m).
  rewrite (load_model_miss _ _ _ _ Hwf Hmiss), Hw, He.
  pose proof (get_make_room_None _ _ Hwf Hmiss) as Hl.
  split; [done|]. split; [done|]. split; [|split].
  - apply dict_get_None. rewrite <- (proj1 (wf_make_room _ Hwf)).
    by apply dict_get_None.
  - intros Hs. unfold make_room.
    destruct (Z.geb_spec (size m) (max_loaded m)); [lia|done].
  - intros Hs lru Hlru. split; [by apply lru_entry_first_oldest|].
    unfold make_room. rewrite Hlru.
    destruct (Z.geb_spec (size m) (max_loaded m)); [done|lia].
Qed.

(** A cache of capacity 1 holding ["A"]; the pipeline of ["B"] cannot be
    built. *)
Lemma failed_load_at_capacity_one :
  let m := (load_model (world_ok 0) "A" "text-generation"
                       (__init__ (Some 1) None)).1 in
  exists m',
    load_model (world_no_pipeline 10) "B" "text-generation" m = (m', Ok None) /\
    Dict.get "B" (loaded_models m') = None /\
    Dict.get "B" (model_usage m') = None /\
    (size m < max_loaded m -> m' = m) /\
    (max_loaded m <= size m ->
     forall lru, lru_entry (model_usage m) = Some lru ->
                 first_oldest lru (model_usage m) /\ m' = without lru.1 m).
Proof.
  apply (load_failure_returns_none _ _ _ _ (RuntimeError "model not found")).
  - split; [reflexivity|]. apply (bool_decide_unpack _). vm_compute. exact I.
  - reflexivity.
  - reflexivity.
  - reflexivity.
Defined.

(** C5 (as the specification words it) fails: a cache of capacity 1 holds
    ["A"]; loading ["B"] fails in the construction of the pipeline.  The
    call returns [None] instead of raising, and ["A"] has been unloaded:
    the cache is not what it was before the call. *)
Lemma failed_load_evicts :
  let m := (load_model (world_ok 0) "A" "text-generation"
                       (__init__ (Some 1) None)).1 in
  let after := load_model (world_no_pipeline 10) "B" "text-generation" m in
  get_loaded_models m = ["A"%string] /\
  after.2 = Ok None /\
  get_loaded_models after.1 = [] /\
  after.1 <> m.
Proof. vm_compute. repeat split; done. Qed.











(** A hit in [load_model] alone returns the entry and leaves [last_used]
    as it was: when the four accesses are [load_model] calls, A still
    carries the instant of its first load and is the one unloaded. *)
Lemma load_hit_does_not_refresh :
  get_loaded_models
    (run_calls [ LoadModel "A" "text-generation" (world_ok 0);
                 LoadModel "B" "text-generation" (world_ok 10);
                 LoadModel "A" "text-generation" (world_ok 20);
                 LoadModel "C" "text-generation" (world_ok 30) ]
               (__init__ (Some 2) None)) = ["B"; "C"]%string.
Proof. reflexivity. Qed.

(** When all the instants read are equal, the tie goes to the entry
    inserted first: A is unloaded. *)
Lemma tie_unloads_first_inserted :
  let w := mk_world (Ok "pipeline"%string) (at_second 0) (at_second 0)
                    (Ok "generated text"%string) (at_second 0) in
  get_loaded_models
    (run_calls [ Generate "a" (Some "A"%string) w;
                 Generate "b" (Some "B"%string) w;
                 Generate "a" (Some "A"%string) w;
                 Generate "c" (Some "C"%string) w ]
               (__init__ (Some 2) None)) = ["B"; "C"]%string.
Proof. reflexivity. Qed.

End Cache.

(** ** The consciousness level *)

Section Consciousness.
Import AgentLoop TransformersDaemon.
Local Open Scope Q_scope.

Lemma min_1_le_1 x : min_1 x <= 1.
Proof.
  unfold min_1. destruct (Qle_bool 1 x) eqn:E; [apply Qle_refl|].
  apply Qnot_lt_le. intros Hlt. apply Qlt_le_weak, Qle_bool_iff in Hlt.
  congruence.
Qed.

Lemma min_1_nonneg x : 0 <= x -> 0 <= min_1 x.
Proof. unfold min_1. by destruct (Qle_bool 1 x). Qed.

Lemma min_1_mono x y : x <= y -> min_1 x <= min_1 y.
Proof.
  intros Hxy. unfold min_1.
  destruct (Qle_bool 1 x) eqn:Ex, (Qle_bool 1 y) eqn:Ey.
  - apply Qle_refl.
  - apply Qle_bool_iff in Ex.
    assert (Qle_bool 1 y = true) by (apply Qle_bool_iff; by eapply Qle_trans).
    congruence.
  - apply Qnot_lt_le. intros Hlt. apply Qlt_le_weak, Qle_bool_iff in Hlt.
    congruence.
  - done.
Qed.

Lemma share_mono x y d w :
  0 <= / d -> 0 <= w -> x <= y -> x / d * w <= y / d * w.
Proof.
  intros Hd Hw Hxy. apply Qmult_le_compat_r; [|done].
  by apply Qmult_le_compat_r.
Qed.

Lemma share_nonneg x d w : 0 <= / d -> 0 <= w -> 0 <= x -> 0 <= x / d * w.
Proof.
  intros Hd Hw Hx. apply Qmult_le_0_compat; [|done].
  by apply Qmult_le_0_compat.
Qed.

Lemma consciousness_mono up up' cycles cycles' n n' :
  up <= up' -> (cycles <= cycles')%Z -> (n <= n')%nat ->
  consciousness up cycles n <= consciousness up' cycles' n'.
Proof.
  intros Hu Hc Hn. unfold consciousness. apply min_1_mono.
  repeat apply Qplus_le_compat; apply share_mono; try done.
  - by rewrite <- Zle_Qle.
  - rewrite <- Zle_Qle. lia.
Qed.

Lemma consciousness_bounds up cycles n :
  0 <= up -> (0 <= cycles)%Z ->
  0 <= consciousness up cycles n /\ consciousness up cycles n <= 1.
Proof.
  intros Hu Hc. split; [|apply min_1_le_1].
  unfold consciousness. apply min_1_nonneg.
  change 0 with (0 + 0 + 0).
  repeat apply Qplus_le_compat; apply share_nonneg; try done.
  - change 0 with (inject_Z 0). by rewrite <- Zle_Qle.
  - change 0 with (inject_Z 0). rewrite <- Zle_Qle. lia.
Qed.

Lemma length_last_100 {A} (l : list A) :
  length (slice_from (-100)%Z l) = Nat.min 100 (length l).
Proof.
  change (-100)%Z with (- (100))%Z.
  rewrite slice_from_neg, length_drop by lia. lia.
Qed.

Lemma consciousness_cycle_effect cycle generated stamp a ds :
  let r := _consciousness_cycle cycle generated stamp a ds in
  uptime r.2 = uptime ds /\ cycles_completed r.2 = cycles_completed ds /\
  consciousness_level r.2 = consciousness_level ds /\
  ((length (thoughts a) <= 100)%nat ->
   (length (thoughts a) <= length (thoughts r.1) <= 100)%nat).
Proof.
  unfold _consciousness_cycle.
  destruct (consciousness_mode a); simpl; [|repeat split; lia].
  destruct generated as [[|c w]|]; simpl; try (repeat split; lia).
  repeat split; try done; rewrite length_app in *; simpl in *;
    destruct (Nat.ltb_spec 100 (length (thoughts a) + 1)); simpl;
    rewrite ?length_last_100, ?length_app; cbn [length]; lia.
Qed.

Lemma step_steady e d :
  steady d ->
  (forall elapsed, e = Heartbeat elapsed -> uptime (state d) <= elapsed) ->
  steady (step e d)
  /\ consciousness_level (state d) <= consciousness_level (state (step e d))
  /\ (forall elapsed, e = Heartbeat elapsed ->
      uptime (state (step e d)) = elapsed)
  /\ ((forall elapsed, e <> Heartbeat elapsed) ->
      uptime (state (step e d)) = uptime (state d)).
Proof.
  intros (Hu & Hc & Hn & Hl0 & Hl1 & Hl) He.
  destruct e as [elapsed|cycle generated stamp|task| |].
  - specialize (He elapsed eq_refl). simpl.
    split; [|split; [apply Qle_refl|split; [intros ? H; by injection H|]]].
    + unfold steady, thoughts_count in *. simpl.
      repeat split; try done; [exact (Qle_trans _ _ _ Hu He)|lia|].
      eapply Qle_trans; [exact Hl|]. apply consciousness_mono; [done|lia|done].
    + intros Hne. by destruct (Hne elapsed).
  - unfold step. destruct (agent_loop d) as [a|] eqn:Ea;
      [|repeat split; try done; apply Qle_refl].
    pose proof (consciousness_cycle_effect cycle generated stamp a (state d))
      as (E1 & E2 & E3 & E4).
    destruct (_consciousness_cycle cycle generated stamp a (state d))
      as [a' ds'].
    simpl in *. unfold thoughts_count in *. rewrite Ea in *.
    specialize (E4 Hn).
    split; [|split; [rewrite E3; apply Qle_refl|split; [done|done]]].
    unfold steady, thoughts_count. simpl. rewrite E1, E2, E3.
    repeat split; try done; [lia|].
    eapply Qle_trans; [exact Hl|]. apply consciousness_mono; [apply Qle_refl|lia|lia].
  - unfold step. destruct (agent_loop d) as [a|] eqn:Ea;
      [|repeat split; try done; apply Qle_refl].
    split; [|split; [apply Qle_refl|split; [done|done]]].
    unfold steady, thoughts_count in *. rewrite Ea in *. simpl. done.
  - unfold step. destruct (agent_loop d) as [a|] eqn:Ea;
      [|repeat split; try done; apply Qle_refl].
    split; [|split; [apply Qle_refl|split; [done|done]]].
    unfold steady, thoughts_count in *. rewrite Ea in *. simpl. done.
  - unfold step. destruct (agent_loop d) as [a|] eqn:Ea;
      [|repeat split; try done; apply Qle_refl].
    unfold thoughts_count in *. rewrite Ea in *.
    destruct (consciousness_bounds (uptime (state d))
                (cycles_completed (state d)) (length (thoughts a)) Hu) as [B0 B1];
      [lia|].
    split; [|split; [done|split; [done|done]]].
    unfold steady, thoughts_count. simpl.
    repeat split; try done. apply Qle_refl.
Qed.

Lemma levels_cons e events d :
  levels (e :: events) d
  = consciousness_level (state d) :: levels events (step e d).
Proof. done. Qed.

Lemma levels_steady events d :
  steady d ->
  nondecreasing (uptime (state d) :: elapsed_times events) ->
  nondecreasing (levels events d)
  /\ Forall (fun l => 0 <= l /\ l <= 1) (levels events d).
Proof.
  revert d. induction events as [|e events IH]; intros d Hd Hup.
  { destruct Hd as (_ & _ & _ & H0 & H1 & _).
    split; [done|]. by repeat constructor. }
  assert (forall elapsed, e = Heartbeat elapsed -> uptime (state d) <= elapsed)
    as He.
  { intros elapsed ->. by destruct Hup. }
  destruct (step_steady e d Hd He) as (Hd' & Hle & Hbeat & Hother).
  destruct (IH (step e d) Hd') as [Hmono Hall].
  { destruct e as [elapsed| | | |]; cbn [elapsed_times] in Hup;
      try (rewrite Hother; [done|by intros ?]).
    rewrite (Hbeat elapsed eq_refl). by destruct Hup. }
  rewrite levels_cons. split.
  - destruct events; (split; [exact Hle|exact Hmono]).
  - constructor; [|done]. by destruct Hd as (_ & _ & _ & H0 & H1 & _).
Qed.

Lemma start_steady agent_enabled mode max_loaded_models default_model :
  steady (start agent_enabled mode max_loaded_models default_model
                TransformersDaemon.__init__).
Proof.
  destruct agent_enabled; repeat split;
    try (unfold thoughts_count; simpl; lia); by vm_compute.
Qed.

Lemma clamp01_id x : 0 <= x -> x <= 1 -> clamp01 x == x.
Proof.
  intros H0 H1. unfold clamp01.
  destruct (Qle_bool x 0) eqn:E0.
  { apply Qle_bool_iff in E0. by apply Qle_antisym. }
  destruct (Qle_bool 1 x) eqn:E1; [|reflexivity].
  apply Qle_bool_iff in E1. by apply Qle_antisym.
Qed.

Lemma min_1_proper x y : x == y -> min_1 x == min_1 y.
Proof.
  intros Hxy. apply Qle_antisym; apply min_1_mono; rewrite Hxy; apply Qle_refl.
Qed.

Lemma clamp01_min_1 x : 0 <= x -> clamp01 x == min_1 x.
Proof.
  intros H0. unfold clamp01, min_1.
  destruct (Qle_bool x 0) eqn:E0; [|reflexivity].
  apply Qle_bool_iff in E0.
  destruct (Qle_bool 1 x) eqn:E1.
  - apply Qle_bool_iff in E1.
    assert (1 <= 0) as Habs by (by eapply Qle_trans). by vm_compute in Habs.
  - by apply Qle_antisym.
Qed.

Lemma fraction_in_range x d : 0 < d -> 0 <= x -> x <= d -> 0 <= x / d /\ x / d <= 1.
Proof.
  intros Hd H0 H1. split.
  - apply Qle_shift_div_l; [done|]. by rewrite Qmult_0_l.
  - apply Qle_shift_div_r; [done|]. by rewrite Qmult_1_l.
Qed.

(** Within the ranges the metric was written for, the level the code
    computes is the clamped formula. *)
Lemma consciousness_clamped_agrees up cycles n :
  0 <= up -> up <= 86400 -> (0 <= cycles <= 10000)%Z -> (n <= 100)%nat ->
  consciousness up cycles n == consciousness_clamped up cycles n.
Proof.
  intros Hu0 Hu1 Hc Hn. unfold consciousness, consciousness_clamped.
  destruct (fraction_in_range up 86400) as [A0 A1]; [done|done|done|].
  destruct (fraction_in_range (inject_Z cycles) 10000) as [B0 B1]; [done| | |].
  { change 0 with (inject_Z 0). rewrite <- Zle_Qle. lia. }
  { change 10000 with (inject_Z 10000). rewrite <- Zle_Qle. lia. }
  destruct (fraction_in_range (inject_Z (Z.of_nat n)) 100) as [C0 C1]; [done| | |].
  { change 0 with (inject_Z 0). rewrite <- Zle_Qle. lia. }
  { change 100 with (inject_Z 100). rewrite <- Zle_Qle. lia. }
  set (x := up / 86400) in *. set (y := inject_Z cycles / 10000) in *.
  set (z := inject_Z (Z.of_nat n) / 100) in *.
  assert (clamp01 x * (3 # 10) + clamp01 y * (3 # 10) + clamp01 z * (4 # 10)
          == x * (3 # 10) + y * (3 # 10) + z * (4 # 10)) as Hsum.
  { by rewrite !clamp01_id. }
  symmetry. rewrite clamp01_min_1.
  - by apply min_1_proper.
  - rewrite Hsum. change 0 with (0 + 0 + 0).
    repeat apply Qplus_le_compat; by apply Qmult_le_0_compat.
Qed.

Lemma snapshots_steady events d :
  steady d ->
  nondecreasing (uptime (state d) :: elapsed_times events) ->
  Forall steady (d :: snapshots events d).
Proof.
  revert d. induction events as [|e events IH]; intros d Hd Hup.
  { constructor; [done|constructor]. }
  constructor; [done|].
  assert (forall elapsed, e = Heartbeat elapsed -> uptime (state d) <= elapsed)
    as He.
  { intros elapsed ->. by destruct Hup. }
  destruct (step_steady e d Hd He) as (Hd' & _ & Hbeat & Hother).
  apply (IH (step e d) Hd').
  destruct e as [elapsed| | | |]; cbn [elapsed_times] in Hup;
    try (rewrite Hother; [done|by intros ?]).
  rewrite (Hbeat elapsed eq_refl). by destruct Hup.
Qed.

Lemma update_in_range d :
  steady d -> in_range d -> updates_to_clamped d.
Proof.
  intros (Hu & Hc & Hn & _) [Hu1 Hc1]. unfold updates_to_clamped, step.
  unfold thoughts_count in *.
  destruct (agent_loop d) as [a|]; [|apply Qeq_refl]. simpl.
  by apply consciousness_clamped_agrees.
Qed.

(** C8 (as the code has it): from the start of the daemon, over any
    sequence of heartbeats and agent-loop steps in which the elapsed time
    read by the heartbeats is never negative and never goes down, the
    level never goes down and stays within [0, 1]; and at every point
    where the uptime is at most one day and at most 10000 cycles are
    completed, [_update_consciousness] sets the level to the clamped
    formula: the fractions [uptime / 86400], [cycles / 10000] and
    [thoughts / 100], each clamped to [0, 1], weighted 0.3, 0.3 and 0.4,
    and the total clamped to [0, 1]. *)
Theorem consciousness_level_nondecreasing
    (agent_enabled : bool) (mode : option bool) (max_loaded_models : option Z)
    (default_model : option string) (events : list event) :
  nondecreasing (0 :: elapsed_times events) ->
  let d0 := start agent_enabled mode max_loaded_models default_model
                  TransformersDaemon.__init__ in
  nondecreasing (levels events d0)
  /\ Forall (fun l => 0 <= l /\ l <= 1) (levels events d0)
  /\ Forall (fun d => in_range d -> updates_to_clamped d)
            (d0 :: snapshots events d0).
Proof.
  intros Hup. cbv zeta.
  destruct (levels_steady events
              (start agent_enabled mode max_loaded_models default_model
                     TransformersDaemon.__init__)) as [Hmono Hall];
    [apply start_steady|done|].
  split; [done|]. split; [done|].
  eapply Forall_impl; [apply snapshots_steady; [apply start_steady|done]|].
  intros d Hd Hr. by apply update_in_range.
Qed.

(** Two rounds of heartbeat, thought and update, at 5 and at 10 seconds. *)
Lemma two_rounds_nondecreasing :
  let events := [ Heartbeat 5; ConsciousnessCycle 1 (Some "a thought"%string) "t1";
                  UpdateConsciousness;
                  Heartbeat 10; ConsciousnessCycle 2 (Some "a thought"%string) "t2";
                  UpdateConsciousness ] in
  let d0 := start true None None None TransformersDaemon.__init__ in
  nondecreasing (levels events d0)
  /\ Forall (fun l => 0 <= l /\ l <= 1) (levels events d0)
  /\ Forall (fun d => in_range d -> updates_to_clamped d)
            (d0 :: snapshots events d0).
Proof.
  apply consciousness_level_nondecreasing. simpl. repeat split; done.
Defined.

(** C8 (as the specification words it) fails: the uptime is the
    difference of two readings of the local wall clock, which steps back
    when the clock is corrected or daylight saving time ends.  With the
    elapsed time read as 7200 s and then as 3600 s, both within a day, the
    level of the second snapshot is below that of the first. *)
Lemma level_drops_when_clock_steps_back :
  let d0 := start true None None None TransformersDaemon.__init__ in
  let ls := levels [ Heartbeat 7200; UpdateConsciousness;
                     Heartbeat 3600; UpdateConsciousness ] d0 in
  ls = [0; 0; (7200 / 86400) * (3 # 10) + (1 / 10000) * (3 # 10) + 0 / 100 * (4 # 10);
        (7200 / 86400) * (3 # 10) + (1 / 10000) * (3 # 10) + 0 / 100 * (4 # 10);
        (3600 / 86400) * (3 # 10) + (2 / 10000) * (3 # 10) + 0 / 100 * (4 # 10)]
  /\ nth 4 ls 0 < nth 2 ls 0
  /\ ~ nondecreasing ls.
Proof.
  cbv zeta. split; [reflexivity|]. split; [reflexivity|].
  intros (_ & _ & _ & H & _). by vm_compute in H.
Qed.

(** Outside those ranges the code departs from its own comments ([1 day =
    max], [metric (0.0 to 1.0)]): the fractions are not clamped, so after
    two days of uptime the uptime share is 0.6 where the clamped formula
    gives 0.3, and an elapsed time of -3600 s, read when the clock was
    set back to before the start, gives a negative level. *)
Lemma consciousness_fractions_not_clamped :
  consciousness 172800 0 0 == 3 # 5 /\
  consciousness_clamped 172800 0 0 == 3 # 10 /\
  (let d0 := start true None None None TransformersDaemon.__init__ in
   nth 2 (levels [ Heartbeat (-3600); UpdateConsciousness ] d0) 0 < 0).
Proof. repeat split. Qed.

End Consciousness.

(** * Further properties of the code *)

(** ** The thought log and the queue, continued *)

Section AgentMore.
Import AgentLoop TransformersDaemon.

Lemma last_drop_lt {A} (l : list A) (k : nat) :
  (k < length l)%nat -> last (drop k l) = last l.
Proof.
  intros Hk. rewrite !last_lookup, length_drop, lookup_drop.
  f_equal. lia.
Qed.

Lemma rolling_log_step cycle th stamp a ds :
  consciousness_mode a = true -> th <> EmptyString ->
  let r := _consciousness_cycle cycle (Some th) stamp a ds in
  let appended := thoughts a ++ [mk_thought cycle stamp th "autonomous"] in
  thoughts r.1 = drop (length appended - 100) appended /\
  last_thought r.2 = Some th.
Proof.
  intros Hm Hth. unfold _consciousness_cycle. rewrite Hm. simpl.
  destruct th as [|c w]; [done|]. simpl. split; [|done].
  destruct (Nat.ltb_spec 100
    (length (thoughts a ++ [mk_thought cycle stamp (String c w) "autonomous"]))).
  - change (-100)%Z with (- (100))%Z. by rewrite slice_from_neg.
  - replace (_ - 100)%nat with 0%nat by lia. done.
Qed.

(** X1: a consciousness cycle that generated a thought appends it to the
    log as the newest entry, keeps only the last 100 entries of the log,
    and stores the thought as [last_thought]; the queue is not touched. *)
Theorem consciousness_cycle_keeps_latest_100
    (cycle : Z) (th stamp : string) (a : AgentLoop.t) (ds : DaemonState) :
  consciousness_mode a = true -> th <> EmptyString ->
  let r := _consciousness_cycle cycle (Some th) stamp a ds in
  let newest := mk_thought cycle stamp th "autonomous" in
  thoughts r.1
  = drop (length (thoughts a ++ [newest]) - 100) (thoughts a ++ [newest]) /\
  last (thoughts r.1) = Some newest /\
  length (thoughts r.1) = Nat.min 100 (S (length (thoughts a))) /\
  last_thought r.2 = Some th /\
  pending_actions r.1 = pending_actions a.
Proof.
  intros Hm Hth.
  destruct (rolling_log_step cycle th stamp a ds Hm Hth) as [Hl Hlast].
  cbv zeta in *. rewrite Hl. split; [done|]. split; [|split; [|split]].
  - rewrite last_drop_lt, last_snoc; [done|]. rewrite length_app; cbn [length]; lia.
  - rewrite length_drop, length_app. cbn [length]. lia.
  - done.
  - unfold _consciousness_cycle. rewrite Hm. simpl.
    by destruct th as [|c w].
Qed.

(** A log of 100 thoughts: the oldest one goes, the new one is last. *)
Lemma log_of_100_drops_oldest :
  let a := AgentLoop.mk true true
             (replicate 100 (mk_thought 0 "t0" "old" "autonomous")) [] in
  let r := _consciousness_cycle 7 (Some "new"%string) "t7" a
             (mk_state "running" 0 0 None 0) in
  let newest := mk_thought 7 "t7" "new" "autonomous" in
  thoughts r.1
  = drop (length (thoughts a ++ [newest]) - 100) (thoughts a ++ [newest]) /\
  last (thoughts r.1) = Some newest /\
  length (thoughts r.1) = Nat.min 100 (S (length (thoughts a))) /\
  last_thought r.2 = Some "new"%string /\
  pending_actions r.1 = pending_actions a.
Proof. apply consciousness_cycle_keeps_latest_100; done. Defined.

Lemma log_consistent_step e d : log_consistent d -> log_consistent (step e d).
Proof.
  unfold log_consistent, step.
  destruct e as [elapsed|cycle generated stamp|task| |];
    destruct (agent_loop d) as [a|] eqn:Ea; simpl; rewrite ?Ea; try done.
  intros [Hn Hl].
  destruct (consciousness_mode a) eqn:Hm.
  - destruct generated as [th|].
    + destruct (decide (th = EmptyString)) as [->|Hth].
      * unfold _consciousness_cycle. rewrite Hm. simpl. by split.
      * pose proof (consciousness_cycle_effect cycle (Some th) stamp a (state d))
          as (_ & _ & _ & H100).
        pose proof (rolling_log_step cycle th stamp a (state d) Hm Hth)
          as [Hths Hlast].
        cbv zeta in *.
        destruct (_consciousness_cycle cycle (Some th) stamp a (state d))
          as [a' ds'].
        simpl in *. split; [by apply H100|].
        rewrite Hlast, Hths, last_drop_lt, last_snoc; [done|].
        rewrite length_app; cbn [length]; lia.
    + unfold _consciousness_cycle. rewrite Hm. simpl. by split.
  - unfold _consciousness_cycle. rewrite Hm. simpl. by split.
Qed.

(** X2: from the start of the daemon and over any sequence of heartbeats
    and agent-loop steps, the thought log never holds more than 100
    thoughts and [state["last_thought"]] is the text of the newest thought
    of the log ([None] while the log is empty). *)
Theorem thought_log_stays_consistent
    (agent_enabled : bool) (mode : option bool) (max_loaded_models : option Z)
    (default_model : option string) (events : list event) :
  Forall log_consistent
    (snapshots events (start agent_enabled mode max_loaded_models default_model
                             TransformersDaemon.__init__)).
Proof.
  assert (log_consistent (start agent_enabled mode max_loaded_models
                                default_model TransformersDaemon.__init__)) as H0.
  { unfold log_consistent. destruct agent_enabled; simpl; [split; [lia|done]|done]. }
  revert H0. generalize (start agent_enabled mode max_loaded_models
                               default_model TransformersDaemon.__init__).
  induction events as [|e events IH]; intros d Hd; simpl; constructor.
  - by apply log_consistent_step.
  - by apply IH, log_consistent_step.
Qed.

(** X3: the queue is first in, first out: after [add_task] was called for
    each of [tasks] in turn, a drain processes what was pending before,
    then [tasks] in the order they were added, logs one line per action
    and leaves the queue empty. *)
Theorem add_task_then_drain_is_fifo
    (a : AgentLoop.t) (tasks : list (gmap string value)) :
  let queued := foldl (fun acc t => add_task t acc) a tasks in
  (_process_actions queued).1.1 = pending_actions a ++ tasks /\
  (_process_actions queued).1.2 = handle <$> (pending_actions a ++ tasks) /\
  pending_actions (_process_actions queued).2 = [] /\
  thoughts (_process_actions queued).2 = thoughts a.
Proof.
  cbv zeta. unfold _process_actions. simpl.
  rewrite drain_id, pending_foldl_add_task. repeat split.
  induction tasks as [|t tasks IH] in a |- *; simpl; [done|]. by rewrite IH.
Qed.

End AgentMore.

(** ** The scheduler and the queue *)

Section SchedulerQueue.
Import AgentLoop TaskScheduler.

Lemma report_unknown stamp : unknown_to_agent (report_action stamp).
Proof. by eexists. Qed.

Lemma stamped_unknown kind stamp :
  kind <> "log_analysis"%string -> kind <> "conversation"%string ->
  kind <> "documentation_check"%string ->
  unknown_to_agent (stamped_action kind stamp).
Proof.
  intros H1 H2 H3. exists (Some (VStr kind)). unfold handle.
  assert (stamped_action kind stamp !! "type" = Some (VStr kind)) as -> by done.
  simpl. apply String.eqb_neq in H1, H2, H3. by rewrite H1, H2, H3.
Qed.

Lemma execute_task_effect stamp task a :
  exists l,
    _execute_task stamp task (Some a)
    = Some (set_pending (pending_actions a ++ l) a) /\
    length l = (if enqueues task then 1%nat else 0%nat) /\
    Forall unknown_to_agent l.
Proof.
  unfold _execute_task, enqueues.
  set (action := Some (default (VStr "") (task !! "action"))).
  destruct (value_is_str action "generate_status_report").
  { exists [report_action stamp]. repeat split.
    constructor; [apply report_unknown|constructor]. }
  destruct (value_is_str action "analyze_code_health").
  { exists [stamped_action "code_health_check" stamp]. repeat split.
    constructor; [by apply stamped_unknown|constructor]. }
  destruct (value_is_str action "benchmark_models").
  { exists [stamped_action "benchmark" stamp]. repeat split.
    constructor; [by apply stamped_unknown|constructor]. }
  exists []. simpl. rewrite app_nil_r. destruct a. simpl.
  by destruct (default (VStr "") (task !! "action")) as [| | |s'|];
    try destruct (String.eqb s' "record_autonomous_thoughts").
Qed.

(** X4: executing a scheduled task posts exactly one action to the queue
    of the agent loop when its action is [generate_status_report],
    [analyze_code_health] or [benchmark_models], and none otherwise; it
    changes nothing else in the agent loop, and without an agent loop it
    does nothing.  The drain knows none of the posted action types: each
    is logged as one of an unknown type. *)
Theorem execute_task_posts_at_most_one_action
    (stamp : string) (task : gmap string value) (a : AgentLoop.t) :
  _execute_task stamp task None = None /\
  exists l,
    _execute_task stamp task (Some a)
    = Some (set_pending (pending_actions a ++ l) a) /\
    length l = (if enqueues task then 1%nat else 0%nat) /\
    Forall unknown_to_agent l.
Proof.
  split; [|apply execute_task_effect].
  unfold _execute_task.
  repeat match goal with |- context [if ?c then _ else _] => destruct c end;
    done.
Qed.

Lemma check_from_appends i tasks now stamp a :
  exists l,
    (check_from i tasks now stamp (Some a)).1
    = Some (set_pending (pending_actions a ++ l) a) /\
    (length l <= length (check_from i tasks now stamp (Some a)).2)%nat /\
    Forall unknown_to_agent l.
Proof.
  revert i a. induction tasks as [|task tasks IH]; intros i a; simpl.
  { exists []. rewrite app_nil_r. by destruct a. }
  destruct (_should_execute task now) as [[|]|e].
  - destruct (execute_task_effect stamp task a) as (l1 & -> & Hn1 & Hu1).
    destruct (IH (S i) (set_pending (pending_actions a ++ l1) a))
      as (l2 & E2 & Hn2 & Hu2).
    destruct (check_from (S i) tasks now stamp _) as [al fired].
    simpl in *. exists (l1 ++ l2). rewrite E2, app_assoc. repeat split.
    + rewrite length_app, Hn1. destruct (enqueues task); simpl; lia.
    + by apply Forall_app.
  - apply IH.
  - exists []. simpl. rewrite app_nil_r. split; [by destruct a|done].
Qed.

(** X5: a run of the scheduler only appends to the queue of the agent
    loop: what was pending stays in front, in order; at most one action
    is appended per firing, each of a type the drain does not know; the
    thought log is not touched. *)
Theorem scheduler_only_appends_to_queue
    (tasks : list (gmap string value)) (polls : list (datetime * string))
    (a : AgentLoop.t) :
  exists l,
    (run tasks polls (Some a)).1
    = Some (set_pending (pending_actions a ++ l) a) /\
    (length l <= length (run tasks polls (Some a)).2)%nat /\
    Forall unknown_to_agent l.
Proof.
  revert a. induction polls as [|[now stamp] polls IH]; intros a; simpl.
  { exists []. rewrite app_nil_r. by destruct a. }
  unfold _check_and_execute_tasks.
  destruct (check_from_appends 0 tasks now stamp a) as (l1 & E1 & Hn1 & Hu1).
  destruct (check_from 0 tasks now stamp (Some a)) as [al fired].
  simpl in E1, Hn1. subst al.
  destruct (IH (set_pending (pending_actions a ++ l1) a))
    as (l2 & E2 & Hn2 & Hu2).
  destruct (run tasks polls _) as [al' later].
  simpl in *. exists (l1 ++ l2). rewrite E2, app_assoc. repeat split.
  - rewrite !length_app, length_fmap. lia.
  - by apply Forall_app.
Qed.

End SchedulerQueue.

(** ** The behaviors of the agent loop *)

Section BehaviorTimers.
Import AgentLoop Behaviors.

Lemma filter_bool_ext {A} (f g : A -> bool) (l : list A) :
  (forall x, x ∈ l -> f x = g x) ->
  filter (fun x => f x = true) l = filter (fun x => g x = true) l.
Proof.
  induction l as [|x l IH]; intros H; [done|].
  rewrite !filter_cons. rewrite <- (H x) by (apply elem_of_cons; by left).
  rewrite IH; [done|]. intros y Hy. apply H, elem_of_cons. by right.
Qed.

Lemma initial_timers_cover bs : timers_cover bs (initial_timers bs).
Proof.
  unfold timers_cover, initial_timers. intros b Hb He.
  assert (b ∈ filter (fun b => is_enabled b = true) bs) as Hin
    by by apply list_elem_of_filter.
  induction (filter (fun b => is_enabled b = true) bs) as [|b' l IH]; simpl.
  - by apply elem_of_nil in Hin.
  - apply elem_of_cons in Hin as [->|Hin].
    + rewrite lookup_insert_eq. by eexists.
    + destruct (decide (name b' = name b)) as [->|Hne].
      * rewrite lookup_insert_eq. by eexists.
      * rewrite lookup_insert_ne by done. by apply IH.
Qed.

Lemma behaviors_from_ready bs now stamp message a timers :
  distinct_names bs -> timers_cover bs timers ->
  exists a' timers',
    behaviors_from bs now stamp message a timers
    = (a', timers', name <$> filter (fun b => ready now timers b = true) bs,
       Ok ()) /\
    forall n,
      timers' !! n
      = if decide (n ∈ name <$> filter (fun b => ready now timers b = true) bs)
        then Some now else timers !! n.
Proof.
  revert a timers. induction bs as [|b bs IH]; intros a timers Hnd Hcov.
  { exists a, timers. split; [done|]. intros n.
    by rewrite decide_False by apply not_elem_of_nil. }
  assert (timers_cover bs timers) as Hcov'.
  { intros b' Hb'. apply Hcov, elem_of_cons. by right. }
  unfold distinct_names in Hnd. simpl.
  destruct (is_enabled b) eqn:He; simpl.
  - rewrite filter_cons_True in Hnd by done. rewrite fmap_cons in Hnd.
    apply NoDup_cons in Hnd as [Hb Hnd].
    destruct (Hcov b) as [last Hlast]; [apply elem_of_cons; by left|done|].
    rewrite Hlast. destruct (Qle_bool (interval_of b) (now - last)) eqn:Hq.
    + rewrite (filter_cons_True (fun b' => ready now timers b' = true))
        by (unfold ready; by rewrite He, Hlast).
      assert (filter (fun b' => ready now (<[name b := now]> timers) b' = true) bs
              = filter (fun b' => ready now timers b' = true) bs) as Hsame.
      { apply filter_bool_ext. intros b' Hb'. unfold ready.
        destruct (is_enabled b') eqn:He'; [|done].
        rewrite lookup_insert_ne; [done|]. intros Heq. apply Hb.
        rewrite Heq. apply list_elem_of_fmap. exists b'.
        split; [done|]. by apply list_elem_of_filter. }
      destruct (IH (_execute_behavior stamp message b a)
                   (<[name b := now]> timers) Hnd)
        as (a' & timers' & E & Ht).
      { intros b' Hb' He'. destruct (decide (name b = name b')) as [->|Hne].
        - rewrite lookup_insert_eq. by eexists.
        - rewrite lookup_insert_ne by done. by apply Hcov'. }
      rewrite E, Hsame. exists a', timers'. split; [done|].
      intros n. rewrite Ht, Hsame. rewrite fmap_cons.
      destruct (decide (n = name b)) as [->|Hne].
      * rewrite lookup_insert_eq.
        rewrite (decide_True (P := name b ∈ name b :: _))
          by (apply elem_of_cons; by left).
        by case_decide.
      * rewrite lookup_insert_ne by done.
        destruct (decide (n ∈ name <$> filter (fun b' => ready now timers b' = true) bs))
          as [Hin|Hin].
        -- rewrite decide_True; [done|]. apply elem_of_cons. by right.
        -- rewrite decide_False; [done|]. by intros [?|?]%elem_of_cons.
    + rewrite (filter_cons_False (fun b' => ready now timers b' = true))
        by (unfold ready; by rewrite He, Hlast, Hq).
      destruct (IH a timers Hnd Hcov') as (a' & timers' & E & Ht).
      rewrite E. by exists a', timers'.
  - rewrite filter_cons_False in Hnd by (by rewrite He).
    rewrite (filter_cons_False (fun b' => ready now timers b' = true))
      by (unfold ready; by rewrite He).
    destruct (IH a timers Hnd Hcov') as (a' & timers' & E & Ht).
    rewrite E. by exists a', timers'.
Qed.

Lemma same_image_same_element {A B} (f : A -> B) (l : list A) x y :
  NoDup (f <$> l) -> x ∈ l -> y ∈ l -> f x = f y -> x = y.
Proof.
  induction l as [|z l IH]; [by intros _ ?%elem_of_nil|].
  rewrite fmap_cons. intros [Hz Hl]%NoDup_cons.
  intros [->|Hx]%elem_of_cons [->|Hy]%elem_of_cons Hf; [done| | |by apply IH].
  - destruct Hz. rewrite Hf. by apply list_elem_of_fmap_2.
  - destruct Hz. rewrite <- Hf. by apply list_elem_of_fmap_2.
Qed.

Lemma execute_behaviors_ready_lemma s now stamp message :
  distinct_names (behaviors s) ->
  timers_cover (behaviors s) (behavior_timers s) ->
  (_execute_behaviors now stamp message s).2 = Ok () /\
  (_execute_behaviors now stamp message s).1.2
  = name <$> filter (fun b => ready now (behavior_timers s) b = true)
                    (behaviors s) /\
  (forall n, behavior_timers (_execute_behaviors now stamp message s).1.1 !! n
             = if decide (n ∈ (_execute_behaviors now stamp message s).1.2)
               then Some now else behavior_timers s !! n) /\
  behaviors (_execute_behaviors now stamp message s).1.1 = behaviors s.
Proof.
  intros Hnd Hcov. unfold _execute_behaviors.
  destruct (behaviors_from_ready (behaviors s) now stamp message (agent s)
              (behavior_timers s) Hnd Hcov) as (a' & timers' & -> & Ht).
  simpl. repeat split. exact Ht.
Qed.

(** X6: when the enabled behaviors have distinct names, one pass of
    [_execute_behaviors] executes exactly the enabled behaviors whose
    interval has elapsed since their timer, in the order of the
    configuration; it sets the timer of each executed behavior to the
    current instant, leaves the other timers alone and raises nothing.  A
    disabled behavior is never executed. *)
Theorem execute_behaviors_runs_the_ready_ones
    (s : Behaviors.t) (now : Q) (stamp message : string) :
  distinct_names (behaviors s) ->
  timers_cover (behaviors s) (behavior_timers s) ->
  let r := _execute_behaviors now stamp message s in
  r.2 = Ok () /\
  r.1.2 = name <$> filter (fun b => ready now (behavior_timers s) b = true)
                          (behaviors s) /\
  (forall n, behavior_timers r.1.1 !! n
             = if decide (n ∈ r.1.2) then Some now
               else behavior_timers s !! n) /\
  behaviors r.1.1 = behaviors s.
Proof.
  intros Hnd Hcov. by apply execute_behaviors_ready_lemma.
Qed.

(** Three behaviors, one of them disabled, on their first pass at
    [now = 120]: the timers start at 0, so the analyzer (interval 300)
    waits and the conversation initiator (interval 60) runs. *)
Lemma first_pass_of_three_behaviors :
  let s := Behaviors.__init__ None
             [ mk_behavior "code_analyzer" None None;
               mk_behavior "issue_responder" (Some 10%Q) (Some false);
               mk_behavior "conversation_initiator" (Some 60%Q) (Some true) ] in
  let r := _execute_behaviors 120 "t" "hello" s in
  r.2 = Ok () /\
  r.1.2 = name <$> filter (fun b => ready 120 (behavior_timers s) b = true)
                          (behaviors s) /\
  (forall n, behavior_timers r.1.1 !! n
             = if decide (n ∈ r.1.2) then Some 120%Q
               else behavior_timers s !! n) /\
  behaviors r.1.1 = behaviors s.
Proof.
  apply execute_behaviors_runs_the_ready_ones.
  - apply (bool_decide_unpack _). vm_compute. exact I.
  - apply initial_timers_cover.
Defined.

(** X7: when the enabled behaviors have distinct names and each has a
    timer, an enabled behavior that was executed in a pass at the instant
    [now] is executed in the next pass, at [now'], exactly when its
    interval has elapsed: [interval <= now' - now].  The timers are kept by
    name, so the condition on the names is needed: two enabled behaviors
    of one name share a timer. *)
Theorem behavior_waits_for_its_interval
    (s : Behaviors.t) (now now' : Q) (stamp message stamp' message' : string)
    (b : behavior) :
  distinct_names (behaviors s) ->
  timers_cover (behaviors s) (behavior_timers s) ->
  b ∈ behaviors s -> is_enabled b = true ->
  let r1 := _execute_behaviors now stamp message s in
  let r2 := _execute_behaviors now' stamp' message' r1.1.1 in
  name b ∈ r1.1.2 ->
  (name b ∈ r2.1.2 <-> (interval_of b <= now' - now)%Q).
Proof.
  intros Hnd Hcov Hb He. cbv zeta. intros Hex.
  destruct (execute_behaviors_ready_lemma s now stamp message Hnd Hcov)
    as (_ & E1 & Ht1 & Hbs1).
  set (s1 := (_execute_behaviors now stamp message s).1.1) in *.
  assert (timers_cover (behaviors s1) (behavior_timers s1)) as Hcov1.
  { rewrite Hbs1. intros b' Hb' He'. rewrite Ht1.
    case_decide; [by eexists|by apply Hcov]. }
  destruct (execute_behaviors_ready_lemma s1 now' stamp' message')
    as (_ & E2 & _ & _); [by rewrite Hbs1|done|].
  rewrite E2, Hbs1.
  assert (ready now' (behavior_timers s1) b = Qle_bool (interval_of b) (now' - now))
    as Hready.
  { unfold ready. rewrite He, Ht1. by rewrite decide_True. }
  rewrite <- Qle_bool_iff, <- Hready. split.
  - intros (b' & Hn & [Hr' Hb']%list_elem_of_filter)%list_elem_of_fmap.
    assert (is_enabled b' = true) as He'.
    { unfold ready in Hr'. by destruct (is_enabled b'). }
    assert (b = b') as ->; [|done].
    apply (same_image_same_element name
             (filter (fun b => is_enabled b = true) (behaviors s)));
      [done| | |done]; by apply list_elem_of_filter.
  - intros Hr. apply list_elem_of_fmap. exists b.
    split; [done|]. by apply list_elem_of_filter.
Qed.

(** The conversation initiator (interval 60) ran at 120; at 150 it
    waits. *)
Lemma conversation_initiator_waits :
  let b := mk_behavior "conversation_initiator" (Some 60%Q) (Some true) in
  let s := Behaviors.__init__ None
             [ mk_behavior "code_analyzer" None None;
               mk_behavior "issue_responder" (Some 10%Q) (Some false); b ] in
  let r1 := _execute_behaviors 120 "t" "hello" s in
  let r2 := _execute_behaviors 150 "t'" "hello again" r1.1.1 in
  name b ∈ r2.1.2 <-> (interval_of b <= 150 - 120)%Q.
Proof.
  apply (behavior_waits_for_its_interval
           (Behaviors.__init__ None
              [ mk_behavior "code_analyzer" None None;
                mk_behavior "issue_responder" (Some 10%Q) (Some false);
                mk_behavior "conversation_initiator" (Some 60%Q) (Some true) ])
           120 150 "t" "hello" "t'" "hello again").
  - apply (bool_decide_unpack _). vm_compute. exact I.
  - apply initial_timers_cover.
  - simpl. repeat (apply elem_of_cons; first [by left|right]).
  - reflexivity.
  - apply (bool_decide_unpack _). vm_compute. exact I.
Defined.

(** Two enabled behaviors named ["x"], of intervals 100 and 10, share the
    timer ["x"]: the pass at 1000 runs the first, the pass at 1050 runs the
    second although only 50 s have passed since ["x"] ran, and the pass at
    1150, 100 s after the second ran, runs the first and skips the second,
    whose timer the first has just reset. *)
Lemma shared_name_shares_timer :
  let b1 := mk_behavior "x" (Some 100%Q) None in
  let b2 := mk_behavior "x" (Some 10%Q) None in
  let s := Behaviors.__init__ None [b1; b2] in
  let r1 := _execute_behaviors 1000 "t1" "hello" s in
  let r2 := _execute_behaviors 1050 "t2" "hello" r1.1.1 in
  let r3 := _execute_behaviors 1150 "t3" "hello" r2.1.1 in
  r1.1.2 = ["x"%string] /\ r2.1.2 = ["x"%string] /\ r3.1.2 = ["x"%string] /\
  behavior_timers r3.1.1 !! "x"%string = Some 1150%Q /\
  ~ (interval_of b1 <= 1050 - 1000)%Q /\
  (interval_of b2 <= 1150 - 1050)%Q.
Proof.
  cbv zeta. split; [by vm_compute|]. split; [by vm_compute|].
  split; [by vm_compute|]. split; [by vm_compute|].
  split; [intros H; by vm_compute in H|]. intros H. by vm_compute in H.
Qed.

Lemma execute_behavior_effect stamp message b a :
  exists l,
    _execute_behavior stamp message b a
    = set_pending (pending_actions a ++ l) a /\
    (length l <= 1)%nat /\ Forall handled_by_agent l.
Proof.
  unfold _execute_behavior, append_action.
  destruct (String.eqb (name b) "code_analyzer").
  { exists [analysis_action stamp]. repeat split; [done|].
    constructor; [done|constructor]. }
  destruct (String.eqb (name b) "model_optimizer").
  { exists []. rewrite app_nil_r. destruct a. repeat split; [simpl; lia|done]. }
  destruct (String.eqb (name b) "documentation_updater").
  { exists [documentation_action stamp]. repeat split; [done|].
    constructor; [done|constructor]. }
  destruct (String.eqb (name b) "issue_responder").
  { exists []. rewrite app_nil_r. destruct a. repeat split; [simpl; lia|done]. }
  destruct (String.eqb (name b) "conversation_initiator").
  { exists [conversation_action message stamp]. repeat split; [done|].
    constructor; [done|constructor]. }
  exists []. rewrite app_nil_r. destruct a. repeat split; [simpl; lia|done].
Qed.

Lemma behaviors_from_appends bs now stamp message a timers :
  exists l,
    (behaviors_from bs now stamp message a timers).1.1.1
    = set_pending (pending_actions a ++ l) a /\
    (length l <= length (behaviors_from bs now stamp message a timers).1.2)%nat /\
    Forall handled_by_agent l.
Proof.
  revert a timers. induction bs as [|b bs IH]; intros a timers; simpl.
  { exists []. rewrite app_nil_r. by destruct a. }
  destruct (negb (is_enabled b)); [apply IH|].
  destruct (timers !! name b) as [last|].
  2:{ exists []. rewrite app_nil_r. by destruct a. }
  destruct (Qle_bool (interval_of b) (now - last)); [|apply IH].
  destruct (execute_behavior_effect stamp message b a) as (l1 & -> & Hn1 & Hh1).
  destruct (IH (set_pending (pending_actions a ++ l1) a) (<[name b := now]> timers))
    as (l2 & E2 & Hn2 & Hh2).
  destruct (behaviors_from bs now stamp message _ _) as [[[a' timers'] executed] r].
  simpl in *. exists (l1 ++ l2). rewrite E2, app_assoc. repeat split.
  - rewrite length_app. lia.
  - by apply Forall_app.
Qed.

(** X8: a pass of [_execute_behaviors] only appends to the queue: what
    was pending stays in front; at most one action is appended per
    executed behavior, and every appended action is of a type the drain
    handles ([log_analysis], [documentation_check] or [conversation], with
    the key its handler reads); the thought log is untouched. *)
Theorem behaviors_post_actions_the_drain_handles
    (s : Behaviors.t) (now : Q) (stamp message : string) :
  exists l,
    agent (_execute_behaviors now stamp message s).1.1
    = set_pending (pending_actions (agent s) ++ l) (agent s) /\
    (length l <= length (_execute_behaviors now stamp message s).1.2)%nat /\
    Forall handled_by_agent l.
Proof.
  unfold _execute_behaviors.
  destruct (behaviors_from_appends (behaviors s) now stamp message (agent s)
              (behavior_timers s)) as (l & E & Hn & Hh).
  destruct (behaviors_from _ _ _ _ _ _) as [[[a' timers'] executed] r].
  simpl in *. by exists l.
Qed.

End BehaviorTimers.

(** ** The model cache, continued *)

Section CacheMore.
Import ModelManager.

Lemma size_make_room_le m :
  wf m ->
  size (make_room m) <= size m /\
  (max_loaded m <= size m -> 1 <= size m -> size (make_room m) = size m - 1).
Proof.
  intros Hwf. unfold make_room.
  destruct (Z.geb_spec (size m) (max_loaded m)) as [Hge|Hlt]; [|lia].
  destruct (lru_entry (model_usage m)) as [lru|] eqn:E.
  - assert (Dict.mem lru.1 (loaded_models m) = true) as Hmem.
    { rewrite (dict_mem_keys_eq _ _ _ (proj1 Hwf)).
      apply dict_mem_keys, list_elem_of_fmap. exists lru.
      split; [done|by apply lru_entry_elem_of]. }
    apply dict_length_remove in Hmem. unfold size in *. simpl. lia.
  - apply lru_entry_None in E. destruct Hwf as [Hk _]. rewrite E in Hk.
    destruct (loaded_models m) eqn:El; [|done].
    unfold size. rewrite El. simpl. lia.
Qed.

Lemma counts_agree_without k m : wf m -> counts_agree m -> counts_agree (without k m).
Proof.
  intros [Hk Hn] Hc name info u. simpl.
  rewrite !dict_get_remove by (by rewrite <- ?Hk).
  destruct (String.eqb name k); [done|]. apply Hc.
Qed.

Lemma counts_agree_make_room m : wf m -> counts_agree m -> counts_agree (make_room m).
Proof.
  intros Hwf Hc. unfold make_room. destruct (size m >=? max_loaded m); [|done].
  destruct (lru_entry (model_usage m)); [by apply counts_agree_without|done].
Qed.

Lemma counts_agree_set name info u m :
  counts_agree m -> usage_count info = total_inferences u ->
  counts_agree (mk (default_model m) (Dict.set name info (loaded_models m))
                   (Dict.set name u (model_usage m)) (max_loaded m)).
Proof.
  intros Hc Hiu name' info' u'. simpl. rewrite !dict_get_set.
  destruct (String.eqb name' name); [|apply Hc]. by intros [= <-] [= <-].
Qed.

Lemma sound_load_model m w name task : sound m -> sound (load_model w name task m).1.
Proof.
  intros (Hwf & Hs & Hc).
  destruct (Dict.get name (loaded_models m)) as [info|] eqn:E.
  { by rewrite (load_model_hit _ _ _ _ _ E). }
  rewrite (load_model_miss _ _ _ _ Hwf E).
  pose proof (size_make_room_le m Hwf) as [Hle Heq].
  pose proof (wf_make_room m Hwf) as Hwf'.
  pose proof (counts_agree_make_room m Hwf Hc) as Hc'.
  pose proof (max_loaded_make_room m) as HK.
  destruct (pipeline_result w) as [model_pipe|e]; simpl.
  - split; [by apply wf_with_model|]. split.
    + unfold size in *. simpl. rewrite dict_length_set. unfold Dict.mem.
      rewrite (get_make_room_None _ _ Hwf E), HK.
      destruct (Z.le_gt_cases (max_loaded m) (Z.of_nat (length (loaded_models m))))
        as [Hfull|Hfree]; [|lia].
      destruct (loaded_models m) as [|x l] eqn:El; simpl in *; [lia|].
      specialize (Heq Hfull). lia.
    + by apply (counts_agree_set name _ _ (make_room m)).
  - split; [done|]. split; [rewrite HK; lia|done].
Qed.

Lemma sound_generate m w prompt model_name :
  sound m -> sound (generate w prompt model_name m).1.
Proof.
  intros Hsound. unfold generate. rewrite except_none_fst.
  set (name := match model_name with
               | Some n => n
               | None => default "gpt2"%string (default_model m)
               end).
  assert (exists m1 loaded,
    (if negb (Dict.mem name (loaded_models m))
     then load_model w name "text-generation" m
     else (m, Ok None)) = (m1, loaded) /\ sound m1) as (m1 & loaded & -> & Hs1).
  { destruct (negb (Dict.mem name (loaded_models m))).
    - pose proof (sound_load_model m w name "text-generation" Hsound) as H1.
      destruct (load_model w name "text-generation" m) as [m1 loaded].
      by exists m1, loaded.
    - by exists m, (Ok None). }
  destruct loaded as [_|e]; [|done].
  destruct (Dict.get name (loaded_models m1)) as [info|] eqn:Hg; [|done].
  destruct (call_result w) as [result|e]; [|done].
  destruct Hs1 as (Hwf & Hsz & Hc).
  assert (exists u, Dict.get name (model_usage m1) = Some u) as [u Hu].
  { destruct (Dict.get name (model_usage m1)) eqn:Hu; [by eexists|].
    apply dict_get_None in Hu. rewrite <- (proj1 Hwf) in Hu.
    apply dict_get_None in Hu. congruence. }
  simpl. rewrite Hu. simpl. split; [|split].
  - destruct Hwf as [Hk Hn]. split; simpl.
    + by rewrite (dict_keys_set_present _ info), (dict_keys_set_present _ u).
    + by rewrite (dict_keys_set_present _ info).
  - unfold size in *. simpl. rewrite dict_length_set. unfold Dict.mem.
    by rewrite Hg.
  - apply (counts_agree_set name _ _ m1); [done|]. simpl.
    by rewrite (Hc name info u).
Qed.

Lemma sound_init max_loaded_models default_model :
  sound (__init__ max_loaded_models default_model).
Proof.
  split; [split; [done|apply NoDup_nil_2]|]. split; [unfold size; simpl; lia|].
  by intros name info u.
Qed.

Lemma sound_perform c m : sound m -> sound (perform c m).
Proof.
  intros Hs. destruct c; simpl; [by apply sound_load_model|by apply sound_generate].
Qed.

Lemma max_loaded_perform c m : max_loaded (perform c m) = max_loaded m.
Proof.
  destruct c as [name task w|prompt model_name w]; simpl.
  - unfold load_model.
    destruct (Dict.get name (loaded_models m)); [done|].
    rewrite except_none_fst.
    destruct (size m >=? max_loaded m).
    + unfold _unload_least_used. destruct (lru_entry (model_usage m)); simpl.
      * unfold Dict.del. destruct (Dict.mem _ (loaded_models m)); simpl; [|done].
        destruct (Dict.mem _ (model_usage m)); simpl; [|done].
        by destruct (pipeline_result w).
      * by destruct (pipeline_result w).
    + by destruct (pipeline_result w).
  - unfold generate. rewrite except_none_fst.
    set (name := match model_name with
                 | Some n => n
                 | None => default "gpt2"%string (default_model m)
                 end).
    assert (exists m1 loaded,
      (if negb (Dict.mem name (loaded_models m))
       then load_model w name "text-generation" m
       else (m, Ok None)) = (m1, loaded) /\ max_loaded m1 = max_loaded m)
      as (m1 & loaded & -> & HK).
    { destruct (negb (Dict.mem name (loaded_models m))); [|by exists m, (Ok None)].
      destruct (load_model w name "text-generation" m) as [m1 loaded] eqn:E.
      exists m1, loaded. split; [done|].
      change m1 with (m1, loaded).1. rewrite <- E.
      unfold load_model.
      destruct (Dict.get name (loaded_models m)); [done|].
      rewrite except_none_fst.
      destruct (size m >=? max_loaded m).
      + unfold _unload_least_used. destruct (lru_entry (model_usage m)); simpl.
        * unfold Dict.del. destruct (Dict.mem _ (loaded_models m)); simpl; [|done].
          destruct (Dict.mem _ (model_usage m)); simpl; [|done].
          by destruct (pipeline_result w).
        * by destruct (pipeline_result w).
      + by destruct (pipeline_result w). }
    destruct loaded as [_|e]; [|done].
    destruct (Dict.get name (loaded_models m1)); [|done].
    destruct (call_result w); [|done]. simpl.
    by destruct (Dict.get name (model_usage m1)).
Qed.

Lemma sound_states calls m :
  sound m ->
  Forall (fun m' => sound m' /\ max_loaded m' = max_loaded m) (states calls m).
Proof.
  revert m. induction calls as [|c calls IH]; intros m Hs; simpl; constructor.
  - split; [by apply sound_perform|apply max_loaded_perform].
  - eapply Forall_impl; [apply IH; by apply sound_perform|].
    intros m' [? ->]. split; [done|apply max_loaded_perform].
Qed.

Lemma unload_ok_when_wf m : wf m -> (_unload_least_used m).2 = Ok ().
Proof.
  intros Hwf. destruct (lru_entry (model_usage m)) as [lru|] eqn:E.
  - by rewrite (unload_wf m lru Hwf E).
  - unfold _unload_least_used. by rewrite E.
Qed.

(** X9: whatever the configured capacity and whatever the environment
    answers, after every call of a sequence of [load_model] and
    [generate] calls on a fresh manager [loaded_models] and [model_usage]
    hold the same model names in the same order, each once; hence
    [_unload_least_used] never raises [KeyError]. *)
Theorem dictionaries_stay_aligned
    (max_loaded_models : option Z) (default_model : option string)
    (calls : list call) :
  Forall (fun m =>
            Dict.keys (loaded_models m) = Dict.keys (model_usage m) /\
            NoDup (get_loaded_models m) /\
            (_unload_least_used m).2 = Ok ())
         (states calls (__init__ max_loaded_models default_model)).
Proof.
  eapply Forall_impl; [apply sound_states, sound_init|].
  intros m [(Hwf & _ & _) _]. destruct Hwf as [Hk Hn].
  split; [done|]. split; [done|]. by apply unload_ok_when_wf.
Qed.

(** X10: for every configured capacity [K], also zero or negative, the
    number of loaded models after any call is at most [max(1, K)]: a
    capacity below one behaves as a capacity of one, a successful load
    always leaving its model in the cache. *)
Theorem cache_size_at_most_max_1_capacity
    (max_loaded_models : option Z) (default_model : option string)
    (calls : list call) :
  Forall (fun m => Z.of_nat (length (get_loaded_models m))
                   <= Z.max 1 (default 3 max_loaded_models))
         (states calls (__init__ max_loaded_models default_model)).
Proof.
  eapply Forall_impl; [apply sound_states, sound_init|].
  intros m [(_ & Hs & _) HK]. simpl in HK. rewrite HK in Hs.
  unfold get_loaded_models, Dict.keys. by rewrite length_fmap.
Qed.

(** X11: after every call of a sequence on a fresh manager, the two usage
    counters of each loaded model agree: [usage_count] in [loaded_models]
    equals [total_inferences] in [model_usage]. *)
Theorem usage_counters_agree
    (max_loaded_models : option Z) (default_model : option string)
    (calls : list call) :
  Forall (fun m =>
            forall model_name info u,
              get_model_info model_name m = Some info ->
              Dict.get model_name (model_usage m) = Some u ->
              usage_count info = total_inferences u)
         (states calls (__init__ max_loaded_models default_model)).
Proof.
  eapply Forall_impl; [apply sound_states, sound_init|].
  by intros m [(_ & _ & Hc) _].
Qed.

(** X12: after a successful load of a model that was not loaded,
    [get_model_info] returns its entry, with a usage count of 0, the model
    is the last of [get_loaded_models], and loading it again, whatever the
    task asked for and whatever the environment would answer, returns
    that same entry and changes nothing. *)
Theorem load_then_lookup
    (m : ModelManager.t) (w w' : world) (name task task' model_pipe : string) :
  wf m ->
  Dict.get name (loaded_models m) = None ->
  pipeline_result w = Ok model_pipe ->
  let m' := (load_model w name task m).1 in
  let info := mk_info model_pipe task (now_loaded_at w) 0 in
  (load_model w name task m).2 = Ok (Some info) /\
  get_model_info name m' = Some info /\
  last (get_loaded_models m') = Some name /\
  load_model w' name task' m' = (m', Ok (Some info)).
Proof.
  intros Hwf Hmiss Hp. cbv zeta.
  rewrite (load_model_miss _ _ _ _ Hwf Hmiss), Hp. simpl.
  assert (Dict.get name
            (Dict.set name (mk_info model_pipe task (now_loaded_at w) 0)
               (loaded_models (make_room m)))
          = Some (mk_info model_pipe task (now_loaded_at w) 0)) as Hg.
  { by rewrite dict_get_set, String.eqb_refl. }
  split; [done|]. split; [exact Hg|]. split.
  - unfold get_loaded_models. simpl. rewrite dict_keys_set. unfold Dict.mem.
    rewrite (get_make_room_None _ _ Hwf Hmiss). apply last_snoc.
  - by apply load_model_hit.
Qed.

(** Loading ["B"] into a cache that holds ["A"]. *)
Lemma load_B_then_lookup :
  let m := (load_model (world_ok 0) "A" "text-generation"
                       (__init__ (Some 2) None)).1 in
  let m' := (load_model (world_ok 10) "B" "summarization" m).1 in
  let info := mk_info "pipeline" "summarization" (at_second 10) 0 in
  (load_model (world_ok 10) "B" "summarization" m).2 = Ok (Some info) /\
  get_model_info "B" m' = Some info /\
  last (get_loaded_models m') = Some "B"%string /\
  load_model (world_no_pipeline 20) "B" "text-generation" m'
  = (m', Ok (Some info)).
Proof.
  apply (load_then_lookup _ (world_ok 10) (world_no_pipeline 20)).
  - split; [reflexivity|]. apply (bool_decide_unpack _). vm_compute. exact I.
  - reflexivity.
  - reflexivity.
Defined.

Lemma unload_raises_Exception m e :
  (_unload_least_used m).2 = Raise e -> is_Exception e = true.
Proof.
  unfold _unload_least_used. destruct (lru_entry (model_usage m)); [|done].
  unfold Dict.del. destruct (Dict.mem _ (loaded_models m)); simpl.
  - destruct (Dict.mem _ (model_usage m)); simpl; [done|]. by intros [= <-].
  - by intros [= <-].
Qed.

Lemma load_model_absorbs w name task m :
  (forall e, pipeline_result w = Raise e -> is_Exception e = true) ->
  exists r, (load_model w name task m).2 = Ok r.
Proof.
  intros Hp. unfold load_model.
  destruct (Dict.get name (loaded_models m)); [by eexists|].
  destruct (size m >=? max_loaded m).
  - pose proof (unload_raises_Exception m) as Hu.
    destruct (_unload_least_used m) as [m1 [[]|e]]; simpl in *.
    + destruct (pipeline_result w) as [|e]; simpl; [by eexists|].
      rewrite (Hp e eq_refl). by eexists.
    + rewrite (Hu e eq_refl). by eexists.
  - destruct (pipeline_result w) as [|e]; simpl; [by eexists|].
    rewrite (Hp e eq_refl). by eexists.
Qed.

(** X13: [load_model] and [generate] never let an [Exception] out: when
    the failures of the environment are of class [Exception], both return
    normally, whatever the state of the manager. *)
Theorem load_model_and_generate_absorb_exceptions
    (w : world) (name task prompt : string) (model_name : option string)
    (m : ModelManager.t) :
  (forall e, pipeline_result w = Raise e -> is_Exception e = true) ->
  (forall e, call_result w = Raise e -> is_Exception e = true) ->
  (exists r, (load_model w name task m).2 = Ok r) /\
  (exists r, (generate w prompt model_name m).2 = Ok r).
Proof.
  intros Hp Hc. split; [by apply load_model_absorbs|].
  unfold generate.
  set (n := match model_name with
            | Some n => n
            | None => default "gpt2"%string (default_model m)
            end).
  assert (exists m1 r,
    (if negb (Dict.mem n (loaded_models m))
     then load_model w n "text-generation" m
     else (m, Ok None)) = (m1, Ok r)) as (m1 & r & ->).
  { destruct (negb (Dict.mem n (loaded_models m))); [|by exists m, None].
    destruct (load_model_absorbs w n "text-generation" m Hp) as [r Hr].
    destruct (load_model w n "text-generation" m) as [m1 r1]. simpl in Hr.
    subst r1. by exists m1, r. }
  destruct (Dict.get n (loaded_models m1)); [|by eexists].
  destruct (call_result w) as [result|e]; simpl.
  - destruct (Dict.get n (model_usage m1)); simpl; by eexists.
  - rewrite (Hc e eq_refl). by eexists.
Qed.

(** A failing construction: both calls return [None]. *)
Lemma failing_world_is_absorbed :
  (exists r, (load_model (world_no_pipeline 0) "A" "text-generation"
                         (__init__ None None)).2 = Ok r) /\
  (exists r, (generate (world_no_pipeline 0) "hello" None
                       (__init__ None None)).2 = Ok r).
Proof.
  apply load_model_and_generate_absorb_exceptions.
  - by intros e [= <-].
  - by intros e.
Defined.

(** X14: when the call of the pipeline fails, [generate] returns [None]
    and records no use: if the model was loaded the manager is exactly as
    before, with the same counters and [last_used]; if it was not, the
    manager is as [load_model] alone leaves it. *)
Theorem failed_inference_records_no_use
    (w : world) (prompt name : string) (m : ModelManager.t) (e : exn) :
  call_result w = Raise e -> is_Exception e = true ->
  (forall e', pipeline_result w = Raise e' -> is_Exception e' = true) ->
  generate w prompt (Some name) m
  = (if Dict.mem name (loaded_models m) then m
     else (load_model w name "text-generation" m).1,
     Ok None).
Proof.
  intros Hc He Hp. unfold generate, Dict.mem.
  destruct (Dict.get name (loaded_models m)) as [info|] eqn:Hg; simpl.
  - rewrite ?Hg, Hc. unfold except_none. by rewrite He.
  - destruct (load_model_absorbs w name "text-generation" m Hp) as [r Hr].
    destruct (load_model w name "text-generation" m) as [m1 r1]. simpl in *.
    subst r1. destruct (Dict.get name (loaded_models m1)); [|done].
    rewrite Hc. unfold except_none. by rewrite He.
Qed.

(** The pipeline of ["A"] is built and its call fails: ["A"] stays
    loaded, unused. *)
Lemma failed_inference_after_load :
  let w := mk_world (Ok "pipeline"%string) (at_second 0) (at_second 1)
                    (Raise (RuntimeError "out of memory")) (at_second 2) in
  generate w "hello" (Some "A"%string) (__init__ None None)
  = (if Dict.mem "A" (loaded_models (__init__ None None))
     then __init__ None None
     else (load_model w "A" "text-generation" (__init__ None None)).1,
     Ok None).
Proof.
  apply (failed_inference_records_no_use _ _ _ _ (RuntimeError "out of memory"));
    [reflexivity|reflexivity|by intros e'].
Defined.

Lemma keys_load_model m w name task n :
  wf m ->
  n ∈ get_loaded_models (load_model w name task m).1 ->
  n = name \/ n ∈ get_loaded_models m.
Proof.
  intros Hwf. unfold get_loaded_models.
  destruct (Dict.get name (loaded_models m)) as [info|] eqn:E.
  { rewrite (load_model_hit _ _ _ _ _ E). by right. }
  rewrite (load_model_miss _ _ _ _ Hwf E).
  assert (Dict.keys (loaded_models (make_room m)) ⊆ Dict.keys (loaded_models m))
    as Hsub.
  { unfold make_room. destruct (size m >=? max_loaded m); [|done].
    destruct (lru_entry (model_usage m)); [|done].
    apply dict_keys_remove_subseteq. }
  destruct (pipeline_result w); simpl.
  - rewrite dict_keys_set. destruct (Dict.mem name _).
    + intros Hn. right. by apply Hsub.
    + intros [Hn| ->%list_elem_of_singleton]%elem_of_app; [|by left].
      right. by apply Hsub.
  - intros Hn. right. by apply Hsub.
Qed.

Lemma load_pool_sound pool m :
  sound m ->
  sound (load_pool pool m).1 /\
  max_loaded (load_pool pool m).1 = max_loaded m /\
  forall n, n ∈ get_loaded_models (load_pool pool m).1 ->
    n ∈ get_loaded_models m
    \/ exists entry w, (entry, w) ∈ pool /\ auto_load entry = Some true
                       /\ pool_name entry = Some n.
Proof.
  revert m. induction pool as [|[entry w] pool IH]; intros m Hs; simpl.
  { split; [done|]. split; [done|]. intros n Hin. by left. }
  assert (forall n (m' : ModelManager.t),
    (n ∈ get_loaded_models m'
     \/ exists entry' w', (entry', w') ∈ pool /\ auto_load entry' = Some true
                          /\ pool_name entry' = Some n) ->
    n ∈ get_loaded_models m'
    \/ exists entry' w', (entry', w') ∈ (entry, w) :: pool
                         /\ auto_load entry' = Some true
                         /\ pool_name entry' = Some n) as Hweak.
  { intros n m' [?|(entry' & w' & Hin & ? & ?)]; [by left|right].
    exists entry', w'. split; [|done]. apply elem_of_cons. by right. }
  destruct (auto_load entry) as [[|]|] eqn:Ha; simpl.
  - destruct (pool_name entry) as [model_name|] eqn:Hn; simpl.
    2:{ split; [done|]. split; [done|]. intros n Hin. by left. }
    pose proof (sound_load_model m w model_name
                  (default "text-generation"%string (pool_task entry)) Hs) as Hs1.
    pose proof (max_loaded_perform
                  (LoadModel model_name
                     (default "text-generation"%string (pool_task entry)) w) m)
      as HK1.
    pose proof (fun n => keys_load_model m w model_name
                  (default "text-generation"%string (pool_task entry)) n
                  (proj1 Hs)) as Hk1.
    simpl in HK1.
    destruct (load_model w model_name _ m) as [m1 [r|e]]; simpl in *.
    + destruct (IH m1 Hs1) as (Hs2 & HK2 & Hk2).
      split; [done|]. split; [congruence|].
      intros n Hin. destruct (Hk2 n Hin) as [Hin1|Hpool].
      * destruct (Hk1 n Hin1) as [->|?]; [|by left].
        right. exists entry, w. split; [|done]. apply elem_of_cons. by left.
      * apply (Hweak n m). by right.
    + split; [done|]. split; [done|].
      intros n Hin. destruct (Hk1 n Hin) as [->|?]; [|by left].
      right. exists entry, w. split; [|done]. apply elem_of_cons. by left.
  - destruct (IH m Hs) as (Hs2 & HK2 & Hk2).
    split; [done|]. split; [done|]. intros n Hin. by apply (Hweak n m), Hk2.
  - destruct (IH m Hs) as (Hs2 & HK2 & Hk2).
    split; [done|]. split; [done|]. intros n Hin. by apply (Hweak n m), Hk2.
Qed.

(** X15: [initialize()] on a fresh manager loads only models that the
    pool marks [auto_load], keeps at most [max(1, K)] of them however many
    the pool marks, and leaves every loaded model with a usage record;
    when the [transformers] import fails it loads nothing. *)
Theorem initialize_loads_only_auto_load
    (import_ok : bool) (pool : list (pool_entry * world))
    (max_loaded_models : option Z) (default_model : option string) :
  let m := initialize import_ok pool (__init__ max_loaded_models default_model) in
  (forall n, n ∈ get_loaded_models m ->
     exists entry w, (entry, w) ∈ pool /\ auto_load entry = Some true
                     /\ pool_name entry = Some n) /\
  Z.of_nat (length (get_loaded_models m))
  <= Z.max 1 (default 3 max_loaded_models) /\
  Dict.keys (loaded_models m) = Dict.keys (model_usage m) /\
  (import_ok = false -> get_loaded_models m = []).
Proof.
  cbv zeta. unfold initialize. destruct import_ok.
  - destruct (load_pool_sound pool (__init__ max_loaded_models default_model)
                (sound_init _ _)) as ((Hwf & Hs & _) & HK & Hk).
    split; [|split; [|split; [by destruct Hwf|done]]].
    + intros n Hin. destruct (Hk n Hin) as [Hin0|?]; [|done].
      by apply elem_of_nil in Hin0.
    + simpl in HK. rewrite HK in Hs.
      unfold get_loaded_models, Dict.keys. by rewrite length_fmap.
  - split; [by intros n ?%elem_of_nil|]. split; [simpl; lia|]. done.
Qed.

End CacheMore.

Section DaemonMore.
Import AgentLoop TransformersDaemon.

Lemma after_events_cons e events d :
  after_events (e :: events) d = after_events events (step e d).
Proof.
  unfold after_events. cbn [snapshots]. rewrite last_cons.
  by destruct (last (snapshots events (step e d))).
Qed.

Lemma step_heartbeat_fields e d :
  running (step e d) = running d /\
  model_manager (step e d) = model_manager d /\
  status (state (step e d)) = status (state d) /\
  cycles_completed (state (step e d))
  = cycles_completed (state d) + Z.of_nat (heartbeats [e]) /\
  uptime (state (step e d))
  = default (uptime (state d)) (last (elapsed_times [e])).
Proof.
  destruct e as [elapsed|cycle generated stamp|task| |];
    destruct (agent_loop d) as [a|] eqn:Ea; unfold step; rewrite ?Ea;
    simpl; rewrite ?Z.add_0_r; try done.
  unfold _consciousness_cycle.
  destruct (negb (consciousness_mode a)); simpl; rewrite ?Z.add_0_r; [done|].
  by destruct generated as [[|c w]|]; simpl; rewrite ?Z.add_0_r.
Qed.

(** X16: over any sequence of heartbeats and agent-loop steps,
    [cycles_completed] grows by exactly the number of heartbeats and
    [uptime] is the elapsed time read by the last heartbeat; the steps of
    the agent loop change neither, and nothing changes [status],
    [running] or the model manager. *)
Theorem heartbeats_count_the_cycles
    (events : list event) (d : TransformersDaemon.t) :
  let d' := after_events events d in
  cycles_completed (state d')
  = cycles_completed (state d) + Z.of_nat (heartbeats events) /\
  uptime (state d') = default (uptime (state d)) (last (elapsed_times events)) /\
  status (state d') = status (state d) /\
  running d' = running d /\
  model_manager d' = model_manager d.
Proof.
  cbv zeta. revert d. induction events as [|e events IH]; intros d.
  { unfold after_events, heartbeats. simpl. by rewrite Z.add_0_r. }
  rewrite after_events_cons.
  destruct (IH (step e d)) as (Hc & Hu & Hs & Hr & Hm).
  destruct (step_heartbeat_fields e d) as (Hr1 & Hm1 & Hs1 & Hc1 & Hu1).
  rewrite Hc, Hu, Hs, Hr, Hm, Hr1, Hm1, Hs1, Hc1, Hu1.
  repeat split.
  - unfold heartbeats. destruct e; simpl; lia.
  - destruct e as [elapsed| | | |]; [|by simpl..].
    cbn [elapsed_times]. rewrite (last_cons elapsed (elapsed_times events)).
    by destruct (last (elapsed_times events)).
Qed.

Lemma log_consistent_snapshots events d :
  log_consistent d -> Forall log_consistent (snapshots events d).
Proof.
  revert d. induction events as [|e events IH]; intros d Hd; simpl; constructor.
  - by apply log_consistent_step.
  - by apply IH, log_consistent_step.
Qed.

Lemma thoughts_answer_of_consistent d :
  log_consistent d -> thoughts_answer_agrees d.
Proof.
  unfold log_consistent, thoughts_answer_agrees, APIServer.get_thoughts,
    thoughts_count.
  destruct (agent_loop d) as [a|]; [|done].
  intros [_ Hlast]. unfold get_recent_thoughts.
  rewrite (slice_from_neg _ 20) by lia.
  change (Z.to_nat 20) with 20%nat.
  split; [done|]. split; [rewrite length_drop; lia|].
  rewrite Hlast. f_equal.
  destruct (thoughts a) as [|th ths] eqn:E; [done|]. rewrite <- E.
  symmetry. apply last_drop_lt. rewrite E. simpl. lia.
Qed.

(** X17: at every point of a run of the daemon, [GET /thoughts] answers
    with a count that is the length of its list, namely the smaller of 20
    and the size of the log, and the newest thought it lists is the
    [last_thought] that [GET /status] shows. *)
Theorem thoughts_endpoint_agrees_with_status
    (agent_enabled : bool) (mode : option bool) (max_loaded_models : option Z)
    (default_model : option string) (events : list event) :
  Forall thoughts_answer_agrees
    (snapshots events (start agent_enabled mode max_loaded_models default_model
                             TransformersDaemon.__init__)).
Proof.
  eapply Forall_impl; [|apply thoughts_answer_of_consistent].
  apply log_consistent_snapshots.
  unfold log_consistent. destruct agent_enabled; simpl; [split; [lia|done]|done].
Qed.

(** X18: a message sent to [POST /interact] is appended to the queue of
    the agent loop as a ["user_interaction"] action and changes nothing
    else; the drain has no branch for that type and logs it as an unknown
    action type, whatever the message. *)
Theorem interaction_is_queued_not_handled
    (message : gmap string value) (stamp : string) (d : TransformersDaemon.t) :
  let d' := APIServer.interact message stamp d in
  pending_actions <$> agent_loop d'
  = (fun a => pending_actions a ++ [APIServer.interact_action message stamp])
      <$> agent_loop d /\
  thoughts <$> agent_loop d' = thoughts <$> agent_loop d /\
  state d' = state d /\ model_manager d' = model_manager d /\
  handle (APIServer.interact_action message stamp)
  = LogUnknownType (Some (VStr "user_interaction")).
Proof.
  cbv zeta. unfold APIServer.interact. simpl.
  destruct (agent_loop d) as [a|]; simpl; repeat split.
Qed.

End DaemonMore.

Section Monitor.
Import AgentLoop EventMonitor.

Lemma file_change_unknown path files stamp :
  unknown_to_agent (file_change_action path files stamp).
Proof. by eexists. Qed.

Lemma file_change_at_most_10 path files stamp :
  at_most_10_files (file_change_action path files stamp).
Proof.
  eexists. split; [done|]. rewrite length_fmap, length_take. lia.
Qed.

(** X19: a scan of a directory posts at most one action however many
    files changed; the action is built from the files of the listing
    modified after the last check, lists at most 10 of them, and the drain
    logs it as an unknown action type.  Nothing is posted when no file
    changed or when the walk failed, and a failed walk leaves the time of
    the last check as it was. *)
Theorem scan_posts_at_most_one_batch
    (path : string) (listing : res (list entry)) (now : datetime)
    (stamp : string) (last_check : gmap string datetime) (a : AgentLoop.t) :
  let scanned := _scan_directory path listing now stamp last_check (Some a) in
  exists posted,
    scanned.2 = Some (set_pending (pending_actions a ++ posted) a) /\
    (length posted <= 1)%nat /\
    Forall unknown_to_agent posted /\
    Forall at_most_10_files posted /\
    posted = match listing with
             | Ok entries =>
                 match recent (default datetime_min (last_check !! path))
                              entries with
                 | [] => []
                 | files => [file_change_action path files stamp]
                 end
             | Raise _ => []
             end /\
    scanned.1 = match listing with
                | Ok _ => <[path := now]> last_check
                | Raise _ => last_check
                end.
Proof.
  cbv zeta. unfold _scan_directory.
  assert (set_pending (pending_actions a ++ []) a = a) as Hsame.
  { rewrite app_nil_r. by destruct a. }
  destruct listing as [entries|e]; simpl.
  2:{ exists []. rewrite Hsame. simpl. repeat split; try done; try lia. }
  destruct (recent _ entries) as [|f fs] eqn:E.
  { exists []. rewrite Hsame. simpl. repeat split; try done; try lia. }
  exists [file_change_action path (f :: fs) stamp]. simpl.
  split; [done|]. split; [lia|].
  split; [repeat constructor; apply file_change_unknown|].
  split; [repeat constructor; apply file_change_at_most_10|].
  done.
Qed.


(** A file dated in the future is posted by every scan, and a file
    modified after the walk read it but before the scan stored its instant
    is posted by no scan: the first scan read the old date, the later ones
    compare the new date with an instant that is not before it. *)
Lemma scan_repeats_and_misses :
  let future := mk_entry "future.txt" true (at_noon 2030) in
  let missed_before := mk_entry "missed.txt" true (at_noon 2020) in
  let missed_after := mk_entry "missed.txt" true (at_noon 2024) in
  let a0 := Some (AgentLoop.__init__ None) in
  let lc0 : gmap string datetime := {[ "dir"%string := at_noon 2021 ]} in
  let s1 := _scan_directory "dir" (Ok [future; missed_before])
                            (at_noon 2025) "t1" lc0 a0 in
  let s2 := _scan_directory "dir" (Ok [future; missed_after])
                            (at_noon 2026) "t2" s1.1 s1.2 in
  let s3 := _scan_directory "dir" (Ok [future; missed_after])
                            (at_noon 2027) "t3" s2.1 s2.2 in
  pending_actions <$> s3.2
  = Some [ file_change_action "dir" ["future.txt"%string] "t1";
           file_change_action "dir" ["future.txt"%string] "t2";
           file_change_action "dir" ["future.txt"%string] "t3" ].
Proof. reflexivity. Qed.

End Monitor.
